(** * ConsciousDay reflection agent: extraction, normalization, orchestration

    A shallow embedding of [agent/reflection_agent.py], with the storage
    of [db/database.py] and the form handler of [main.py].  Python [str]
    values are sequences of Unicode code points; the regular expressions,
    [strip], [find]/[rfind], slicing, [str.format], [json.loads] and the
    statements run by [sqlite3] are embedded as the functions the
    interpreter runs for the calls the modules make, with the exceptions
    they raise. *)

From Stdlib Require Import String Ascii List ZArith NArith Bool Lia.
Import ListNotations.
Open Scope list_scope.

(** ** Python strings *)

Module PyStr.

Definition char := N.
Definition str := list char.

(** An ASCII literal of the source as a sequence of code points. *)
Definition lit (s : string) : str := map N_of_ascii (list_ascii_of_string s).

Definition dquote : char := 34%N.
Definition backtick : char := 96%N.
Definition lbrace : char := 123%N.
Definition rbrace : char := 125%N.
Definition newline : char := 10%N.

(** A literal between double quotes. *)
Definition quoted (s : string) : str := dquote :: lit s ++ [dquote].

Definition char_eqb (a b : char) : bool := N.eqb a b.
Arguments char_eqb : simpl never.

Fixpoint str_eqb (a b : str) : bool :=
  match a, b with
  | [], [] => true
  | x :: a', y :: b' => char_eqb x y && str_eqb a' b'
  | _, _ => false
  end.

(** [Py_UNICODE_ISSPACE]: the characters [str.strip()] removes and the
    class [\s] of a [str] pattern. *)
Definition isspace (c : char) : bool :=
  ((9 <=? c) && (c <=? 13) || (28 <=? c) && (c <=? 32)
   || (c =? 133) || (c =? 160) || (c =? 5760)
   || (8192 <=? c) && (c <=? 8202)
   || (c =? 8232) || (c =? 8233) || (c =? 8239) || (c =? 8287)
   || (c =? 12288))%N.

(** [s.startswith(p)] *)
Fixpoint startswith (s p : str) {struct p} : bool :=
  match p, s with
  | [], _ => true
  | x :: p', y :: s' => char_eqb x y && startswith s' p'
  | _ :: _, [] => false
  end.

(** [s.endswith(p)] *)
Definition endswith (s p : str) : bool := startswith (rev s) (rev p).

Fixpoint lstrip (s : str) : str :=
  match s with
  | c :: r => if isspace c then lstrip r else s
  | [] => []
  end.

Definition rstrip (s : str) : str := rev (lstrip (rev s)).

(** [s.strip()] *)
Definition strip (s : str) : str := rstrip (lstrip s).

(** [s.find(p)] and [s.rfind(p)]: lowest and highest index of an
    occurrence, [-1] when there is none. *)
Fixpoint find_from (i : Z) (s p : str) : Z :=
  if startswith s p then i
  else match s with
       | [] => (-1)%Z
       | _ :: r => find_from (i + 1) r p
       end.

Definition find (s p : str) : Z := find_from 0 s p.

Fixpoint rfind_from (i : Z) (s p : str) : Z :=
  match s with
  | [] => if startswith s p then i else (-1)%Z
  | _ :: r =>
      let k := rfind_from (i + 1) r p in
      if (k =? -1)%Z then (if startswith s p then i else (-1)%Z) else k
  end.

Definition rfind (s p : str) : Z := rfind_from 0 s p.

(** [s[lo:hi]] with Python's treatment of negative and oversized bounds. *)
Definition slice_bound (len i : Z) : Z :=
  if (i <? 0)%Z then Z.max 0 (i + len) else Z.min i len.

Definition slice (s : str) (lo hi : Z) : str :=
  let len := Z.of_nat (length s) in
  let l := slice_bound len lo in
  let h := slice_bound len hi in
  firstn (Z.to_nat (h - l)) (skipn (Z.to_nat l) s).

(** [p in s] *)
Fixpoint contains (s p : str) : bool :=
  startswith s p
  || match s with
     | [] => false
     | _ :: r => contains r p
     end.

(** [a] is [b] with some characters deleted. *)
Inductive subseq : str -> str -> Prop :=
| subseq_nil : subseq [] []
| subseq_keep c a b : subseq a b -> subseq (c :: a) (c :: b)
| subseq_drop c a b : subseq a b -> subseq a (c :: b).

(** Truthiness of a [str] and of an optional [str] ([None] is falsy). *)
Definition truthy (s : str) : bool :=
  match s with [] => false | _ :: _ => true end.

Definition truthy_opt (o : option str) : bool :=
  match o with Some s => truthy s | None => false end.

(** [o or ''] *)
Definition or_empty (o : option str) : str :=
  match o with Some s => if truthy s then s else [] | None => [] end.

End PyStr.

Import PyStr.

(** ** The two regular expressions of the extractor *)

Module Re.

(** [re.sub(pattern, '', s)] for a pattern that never matches the empty
    string.  [m s] is the text left after the match that starts at the head
    of [s], if there is one; scanning resumes right after a match, and a
    character at which no match starts is copied to the output. *)
Fixpoint sub_go (m : str -> option str) (fuel : nat) (s : str) : str :=
  match s with
  | [] => []
  | c :: r =>
      match fuel with
      | O => s
      | S f =>
          match m s with
          | Some rest => sub_go m f rest
          | None => c :: sub_go m f r
          end
      end
  end.

Definition sub (m : str -> option str) (s : str) : str :=
  sub_go m (length s) s.

(** The pattern [```(?:json)?\s*] at the head of [s].  The optional group and
    the star are greedy and what follows them can match the empty string, so
    the first attempt of the backtracking matcher succeeds: the tag is taken
    when it is there, then every whitespace character that follows. *)
Definition after_fence (after : str) : str :=
  lstrip (if startswith after (lit "json") then skipn 4 after else after).

Definition fence_open (s : str) : option str :=
  if startswith s (lit "```") then Some (after_fence (skipn 3 s)) else None.

(** Where [$] matches (no MULTILINE flag): at the end of the string and just
    before a newline that ends the string. *)
Definition at_dollar (s : str) : bool :=
  match s with
  | [] => true
  | [c] => char_eqb c newline
  | _ => false
  end.

(** The pattern [\s*```$] at the head of [s].  A backtick is not a
    whitespace character, so giving back whitespace taken by the star never
    helps: the match, if any, is the one after the whole run. *)
Definition fence_close (s : str) : option str :=
  let after := lstrip s in
  if startswith after (lit "```") && at_dollar (skipn 3 after)
  then Some (skipn 3 after)
  else None.

End Re.

(** ** Response extractor *)

(** Lines 107-108: both substitutions, each followed by [strip()]. *)
Definition fenced_removed (text : str) : str :=
  let fenced_removed := strip (Re.sub Re.fence_open text) in
  strip (Re.sub Re.fence_close fenced_removed).

(** [_extract_json_from_text]; [None] is the function's [None]. *)
Definition _extract_json_from_text (text : option str) : option str :=
  match text with
  | None => None
  | Some text =>
      if negb (truthy text) then None
      else
        let fenced_removed := fenced_removed text in
        if startswith fenced_removed [lbrace]
           && endswith fenced_removed [rbrace]
        then Some fenced_removed
        else
          let start := find fenced_removed [lbrace] in
          let end_ := rfind fenced_removed [rbrace] in
          if negb (start =? -1)%Z && negb (end_ =? -1)%Z && (end_ >? start)%Z
          then Some (strip (slice fenced_removed start (end_ + 1)))
          else None
  end.

(** ** [json.loads]

    The decoder of the standard library ([json/decoder.py],
    [json/scanner.py]) with its default options (strict strings, no hooks),
    on a [str] argument.  Positions in the text are kept as the suffix still
    to be read.  The two limits of the interpreter that the decoder obeys
    are parameters: the longest integer literal [int()] converts
    ([sys.get_int_max_str_digits()], 4300 unless set otherwise, 0 for no
    limit) and the number of nested objects and arrays it can enter before
    the recursion limit is passed, which depends on the depth of the call
    stack at the time. *)

Module Json.

#[warnings="-register-all"]
Inductive value :=
| Null
| Bool (b : bool)
| Int (z : Z)
| Float (literal : str)
| Str (s : str)
| Array (items : list value)
| Object (d : list (str * value)).

(** A [dict] as the list of its items in insertion order. *)
Definition dict := list (str * value).

Fixpoint dict_get (d : dict) (k : str) : option value :=
  match d with
  | [] => None
  | (k', v) :: d' => if str_eqb k' k then Some v else dict_get d' k
  end.

(** [d[k] = v]: a key keeps the place of its first insertion. *)
Fixpoint dict_set (d : dict) (k : str) (v : value) : dict :=
  match d with
  | [] => [(k, v)]
  | (k', v') :: d' =>
      if str_eqb k' k then (k', v) :: d' else (k', v') :: dict_set d' k v
  end.

(** [dict(pairs)] *)
Definition dict_of_pairs (pairs : list (str * value)) : dict :=
  fold_left (fun d kv => dict_set d (fst kv) (snd kv)) pairs [].

(** The settings of the interpreter that bound the decoder:
    [sys.get_int_max_str_digits()], where 0 lifts the limit, and the
    number of arrays and objects, one inside the other, that the
    recursion limit leaves room for at the call. *)
Record limits := {
  int_max_str_digits : nat;
  recursion_room : nat
}.

(** Result of a scanning step: a value; [JSONDecodeError]; the
    [ValueError] of an integer literal over the digit limit; the
    [RecursionError] of nesting over the room left; or the bound on the
    number of calls of the model was reached (shown below not to
    happen). *)
Inductive outcome (A : Type) :=
| Ok (a : A)
| DecodeError
| DigitLimit
| DepthLimit
| OutOfFuel.
Arguments Ok {A} a.
Arguments DecodeError {A}.
Arguments DigitLimit {A}.
Arguments DepthLimit {A}.
Arguments OutOfFuel {A}.

Definition bind {A B} (x : outcome A) (f : A -> outcome B) : outcome B :=
  match x with
  | Ok a => f a
  | DecodeError => DecodeError
  | DigitLimit => DigitLimit
  | DepthLimit => DepthLimit
  | OutOfFuel => OutOfFuel
  end.

Notation "' p <- x ;; k" := (bind x (fun p => k))
  (at level 61, p pattern, x at next level, right associativity).

Definition is_char (c : char) (a : ascii) : bool := char_eqb c (N_of_ascii a).

(** [WHITESPACE = re.compile(r'[ \t\n\r]*')] *)
Definition is_ws (c : char) : bool :=
  ((c =? 32) || (c =? 9) || (c =? 10) || (c =? 13))%N.

Fixpoint skip_ws (s : str) : str :=
  match s with
  | c :: r => if is_ws c then skip_ws r else s
  | [] => []
  end.

Definition is_digit (c : char) : bool := ((48 <=? c) && (c <=? 57))%N.

Definition hex_digit (c : char) : option N :=
  if is_digit c then Some (c - 48)%N
  else if ((97 <=? c) && (c <=? 102))%N then Some (c - 87)%N
  else if ((65 <=? c) && (c <=? 70))%N then Some (c - 55)%N
  else None.

(** [_decode_uXXXX] on the four characters after [\u]. *)
Definition decode_uXXXX (a b c d : char) : option N :=
  match hex_digit a, hex_digit b, hex_digit c, hex_digit d with
  | Some x, Some y, Some z, Some w => Some (((x * 16 + y) * 16 + z) * 16 + w)%N
  | _, _, _, _ => None
  end.

(** [BACKSLASH]: the one-character escapes. *)
Definition backslash_escape (c : char) : option char :=
  if char_eqb c dquote then Some dquote
  else if is_char c "\" then Some 92%N
  else if is_char c "/" then Some 47%N
  else if is_char c "b" then Some 8%N
  else if is_char c "f" then Some 12%N
  else if is_char c "n" then Some 10%N
  else if is_char c "r" then Some 13%N
  else if is_char c "t" then Some 9%N
  else None.

Definition high_surrogate (u : N) : bool := ((55296 <=? u) && (u <=? 56319))%N.
Definition low_surrogate (u : N) : bool := ((56320 <=? u) && (u <=? 57343))%N.

Definition cons_fst (c : char) (p : str * str) : str * str :=
  (c :: fst p, snd p).

(** [scanstring(s, end, strict=True)], [s] being the text after the opening
    quote: the decoded content and the text after the closing quote. *)
Fixpoint scanstring (s : str) : outcome (str * str) :=
  match s with
  | [] => DecodeError
  | c :: r =>
      if char_eqb c dquote then Ok ([], r)
      else if is_char c "\" then
        match r with
        | [] => DecodeError
        | esc :: r1 =>
            if is_char esc "u" then
              match r1 with
              | h1 :: h2 :: h3 :: h4 :: r2 =>
                  match decode_uXXXX h1 h2 h3 h4 with
                  | None => DecodeError
                  | Some uni =>
                      match r2 with
                      | b :: u :: r3 =>
                          if high_surrogate uni && is_char b "\"
                             && is_char u "u" then
                            match r3 with
                            | g1 :: g2 :: g3 :: g4 :: r4 =>
                                match decode_uXXXX g1 g2 g3 g4 with
                                | None => DecodeError
                                | Some uni2 =>
                                    if low_surrogate uni2 then
                                      ' p <- scanstring r4 ;;
                                      Ok (cons_fst
                                            (65536 + (N.lor
                                               (N.shiftl (uni - 55296) 10)
                                               (uni2 - 56320)))%N p)
                                    else
                                      ' p <- scanstring r2 ;;
                                      Ok (cons_fst uni p)
                                end
                            | _ => DecodeError
                            end
                          else
                            ' p <- scanstring r2 ;; Ok (cons_fst uni p)
                      | _ => ' p <- scanstring r2 ;; Ok (cons_fst uni p)
                      end
                  end
              | _ => DecodeError
              end
            else
              match backslash_escape esc with
              | None => DecodeError
              | Some ch => ' p <- scanstring r1 ;; Ok (cons_fst ch p)
              end
        end
      else if (c <=? 31)%N then DecodeError
      else ' p <- scanstring r ;; Ok (cons_fst c p)
  end.

Fixpoint span_digits (s : str) : str * str :=
  match s with
  | c :: r => if is_digit c then cons_fst c (span_digits r) else ([], s)
  | [] => ([], [])
  end.

Definition int_of_digits (ds : str) : Z :=
  fold_left (fun acc c => (acc * 10 + Z.of_N (c - 48))%Z) ds 0%Z.

(** Group 1 of [NUMBER_RE]: an optional minus sign, then [0] or a digit
    from 1 to 9 followed by any number of digits. *)
Definition number_integer (s : str) : option (bool * str * str) :=
  let (neg, s1) :=
    match s with
    | c :: r => if is_char c "-" then (true, r) else (false, s)
    | [] => (false, s)
    end in
  match s1 with
  | c :: r =>
      if is_char c "0" then Some (neg, [c], r)
      else if is_digit c then
        let (ds, rest) := span_digits r in Some (neg, c :: ds, rest)
      else None
  | [] => None
  end.

(** Group 2, optional: a dot and at least one digit. *)
Definition number_frac (s : str) : str * str :=
  match s with
  | p :: d :: r =>
      if is_char p "." && is_digit d then
        let (ds, rest) := span_digits (d :: r) in (p :: ds, rest)
      else ([], s)
  | _ => ([], s)
  end.

(** Group 3, optional: [e] or [E], an optional sign, at least one digit. *)
Definition number_exp (s : str) : str * str :=
  match s with
  | e :: r =>
      if is_char e "e" || is_char e "E" then
        let (sign, r1) :=
          match r with
          | c :: r' =>
              if is_char c "-" || is_char c "+" then ([c], r') else ([], r)
          | [] => ([], r)
          end in
        match r1 with
        | d :: _ =>
            if is_digit d then
              let (ds, rest) := span_digits r1 in (e :: sign ++ ds, rest)
            else ([], s)
        | [] => ([], s)
        end
      else ([], s)
  | [] => ([], s)
  end.

(** [parse_int], that is [int()] in base 10: a literal of more than 640
    digits is refused when it is longer than the limit in force; the sign
    does not count. *)
Definition parse_int (max_digits : nat) (neg : bool) (integer : str)
  : outcome value :=
  if (640 <? length integer) && (0 <? max_digits)
     && (max_digits <? length integer)
  then DigitLimit
  else Ok (Int (if neg then - int_of_digits integer
                else int_of_digits integer)).

(** [match_number] and the choice between [parse_int] and [parse_float]
    (which has no such limit). *)
Definition match_number (max_digits : nat) (s : str)
  : option (outcome (value * str)) :=
  match number_integer s with
  | None => None
  | Some (neg, integer, r) =>
      let (frac, r1) := number_frac r in
      let (exp, r2) := number_exp r1 in
      let sign := if neg : bool then lit "-" else [] in
      if truthy frac || truthy exp
      then Some (Ok (Float (sign ++ integer ++ frac ++ exp), r2))
      else Some (' v <- parse_int max_digits neg integer ;; Ok (v, r2))
  end.

(** [scan_once], with the bodies of [JSONObject] and [JSONArray]: the part
    before the loop sits in [scan_once], each loop is a function of its
    own.  [object_items] starts after the opening quote of a key,
    [array_items] at a value.  Entering an object or an array takes one
    level of [room]; the values inside are scanned with what is left. *)
Fixpoint scan_once (max_digits fuel room : nat) (s : str)
  : outcome (value * str) :=
  match fuel with
  | O => OutOfFuel
  | S n =>
      match s with
      | [] => DecodeError
      | c :: r =>
          if char_eqb c dquote then
            ' p <- scanstring r ;; Ok (Str (fst p), snd p)
          else if is_char c "{" then
            match room with
            | O => DepthLimit
            | S room' =>
                match skip_ws r with
                | c1 :: r1 =>
                    if is_char c1 "}" then Ok (Object [], r1)
                    else if char_eqb c1 dquote
                    then object_items max_digits n room' [] r1
                    else DecodeError
                | [] => DecodeError
                end
            end
          else if is_char c "[" then
            match room with
            | O => DepthLimit
            | S room' =>
                match skip_ws r with
                | c1 :: r1 =>
                    if is_char c1 "]" then Ok (Array [], r1)
                    else array_items max_digits n room' [] (c1 :: r1)
                | [] => DecodeError
                end
            end
          else if startswith s (lit "null") then Ok (Null, skipn 4 s)
          else if startswith s (lit "true") then Ok (Bool true, skipn 4 s)
          else if startswith s (lit "false") then Ok (Bool false, skipn 5 s)
          else
            match match_number max_digits s with
            | Some res => res
            | None =>
                if startswith s (lit "NaN")
                then Ok (Float (lit "NaN"), skipn 3 s)
                else if startswith s (lit "Infinity")
                then Ok (Float (lit "Infinity"), skipn 8 s)
                else if startswith s (lit "-Infinity")
                then Ok (Float (lit "-Infinity"), skipn 9 s)
                else DecodeError
            end
      end
  end

with object_items (max_digits fuel room : nat)
  (pairs : list (str * value)) (s : str) : outcome (value * str) :=
  match fuel with
  | O => OutOfFuel
  | S n =>
      ' k <- scanstring s ;;
      match skip_ws (snd k) with
      | c :: r =>
          if is_char c ":" then
            ' v <- scan_once max_digits n room (skip_ws r) ;;
            let pairs := pairs ++ [(fst k, fst v)] in
            match skip_ws (snd v) with
            | c1 :: r1 =>
                if is_char c1 "}" then Ok (Object (dict_of_pairs pairs), r1)
                else if is_char c1 "," then
                  match skip_ws r1 with
                  | c2 :: r2 =>
                      if char_eqb c2 dquote
                      then object_items max_digits n room pairs r2
                      else DecodeError
                  | [] => DecodeError
                  end
                else DecodeError
            | [] => DecodeError
            end
          else DecodeError
      | [] => DecodeError
      end
  end

with array_items (max_digits fuel room : nat) (values : list value)
  (s : str) : outcome (value * str) :=
  match fuel with
  | O => OutOfFuel
  | S n =>
      ' v <- scan_once max_digits n room s ;;
      let values := values ++ [fst v] in
      match skip_ws (snd v) with
      | c1 :: r1 =>
          if is_char c1 "]" then Ok (Array values, r1)
          else if is_char c1 "," then
            array_items max_digits n room values (skip_ws r1)
          else DecodeError
      | [] => DecodeError
      end
  end.

(** [JSONDecoder.decode] under [json.loads]: a leading byte order mark is
    refused, whitespace is allowed around the one value.  A level of
    nesting costs at most two nested calls and one character. *)
Definition decode (lim : limits) (s : str) : outcome value :=
  if startswith s [65279%N] then DecodeError
  else
    let s0 := skip_ws s in
    ' v <- scan_once lim.(int_max_str_digits) (2 * length s0 + 1)
             lim.(recursion_room) s0 ;;
    match skip_ws (snd v) with
    | [] => Ok (fst v)
    | _ :: _ => DecodeError
    end.

(** How a call of [json.loads] ends. *)
Inductive loaded :=
| Loaded (v : value)
| JSONDecodeError
| ValueError
| RecursionError.

(** [json.loads(s)] *)
Definition loads (lim : limits) (s : str) : loaded :=
  match decode lim s with
  | Ok v => Loaded v
  | DecodeError => JSONDecodeError
  | DigitLimit => ValueError
  | DepthLimit | OutOfFuel => RecursionError
  end.

End Json.

(** ** Prompt builder *)

Module Prompt.

(** [str.format] as [PromptTemplate] applies it to keyword arguments, for
    the replacement fields the template uses: a bare keyword name between
    braces.  Doubled braces are literal braces.  [None] is the exception
    raised for a lone brace, an unknown name, or a field with a
    conversion, a format specification, an attribute or an index.  [field]
    holds the name read so far, reversed, while inside a field. *)
Fixpoint kwarg (kwargs : list (str * str)) (name : str) : option str :=
  match kwargs with
  | [] => None
  | (k, v) :: rest => if str_eqb k name then Some v else kwarg rest name
  end.

Definition field_special (c : char) : bool :=
  Json.is_char c "{" || Json.is_char c "!" || Json.is_char c ":"
  || Json.is_char c "." || Json.is_char c "[".

Fixpoint format_go (kwargs : list (str * str)) (field : option str)
  (s : str) : option str :=
  match s with
  | [] => match field with None => Some [] | Some _ => None end
  | c :: r =>
      match field with
      | Some name =>
          if char_eqb c rbrace then
            match kwarg kwargs (rev name) with
            | Some v => option_map (app v) (format_go kwargs None r)
            | None => None
            end
          else if field_special c then None
          else format_go kwargs (Some (c :: name)) r
      | None =>
          if char_eqb c lbrace then
            match r with
            | c' :: r' =>
                if char_eqb c' lbrace
                then option_map (cons lbrace) (format_go kwargs None r')
                else format_go kwargs (Some []) r
            | [] => None
            end
          else if char_eqb c rbrace then
            match r with
            | c' :: r' =>
                if char_eqb c' rbrace
                then option_map (cons rbrace) (format_go kwargs None r')
                else None
            | [] => None
            end
          else option_map (cons c) (format_go kwargs None r)
      end
  end.

Definition format (template : str) (kwargs : list (str * str)) : option str :=
  format_go kwargs None template.

(** A line of a literal, with the newline that ends it. *)
Definition line (s : string) : str := lit s ++ [newline].

Definition PROMPT_TEMPLATE : str :=
  line "You are a daily reflection and planning assistant."
  ++ line "Your goals:"
  ++ line "1) Reflect on the user's morning journal and dream input."
  ++ line "2) Interpret the user's emotional and mental state."
  ++ line "3) Understand their intention and top 3 priorities."
  ++ line "4) Generate a practical, energy-aligned, time-aware strategy for the day."
  ++ [newline]
  ++ line "INPUT:"
  ++ line "Morning Journal: {journal}"
  ++ line "Intention: {intention}"
  ++ line "Dream: {dream}"
  ++ line "Top 3 Priorities: {priorities}"
  ++ [newline]
  ++ line "OUTPUT (in JSON):"
  ++ line "Return a JSON object exactly with these keys:"
  ++ line "- reflection (short paragraph)"
  ++ line "- dream_summary (short paragraph)"
  ++ line "- mindset (short paragraph)"
  ++ line "- strategy (short paragraph, include time-aligned suggestions if possible)"
  ++ [newline]
  ++ line "Example:"
  ++ lit "{{" ++ quoted "reflection" ++ lit ":" ++ quoted "..." ++ lit ","
  ++ quoted "dream_summary" ++ lit ":" ++ quoted "..." ++ lit ","
  ++ quoted "mindset" ++ lit ":" ++ quoted "..." ++ lit ","
  ++ quoted "strategy" ++ lit ":" ++ quoted "..." ++ line "}}".

(** [_PROMPT.format(journal=..., intention=..., dream=..., priorities=...)],
    as [LLMChain.run] renders it from the dictionary it is given. *)
Definition build_prompt (journal intention dream priorities : str)
  : option str :=
  format PROMPT_TEMPLATE
    [(lit "journal", journal); (lit "intention", intention);
     (lit "dream", dream); (lit "priorities", priorities)].

End Prompt.

(** ** Orchestrator *)

(** Values of the returned dictionaries: a [str] or [None]. *)
Inductive pyval :=
| PNone
| PStr (s : str).

(** A dictionary literal, as its items in order. *)
Definition pydict := list (str * pyval).

Definition keys (d : pydict) : list str := map fst d.

Fixpoint item (d : pydict) (k : str) : option pyval :=
  match d with
  | [] => None
  | (k', v) :: d' => if str_eqb k' k then Some v else item d' k
  end.

(** A Python computation: a value, or an exception leaving the function. *)
Inductive py_result (A : Type) :=
| Return (a : A)
| Raise (exc : str).
Arguments Return {A} a.
Arguments Raise {A} exc.

Definition py_bind {A B} (x : py_result A) (f : A -> py_result B)
  : py_result B :=
  match x with
  | Return a => f a
  | Raise e => Raise e
  end.

Notation "x <- c ;;; k" := (py_bind c (fun x => k))
  (at level 61, c at next level, right associativity).

(** What a call depends on in its process: the module-level configuration,
    read from the environment at import ([TEMPERATURE] is kept as the text
    the number was read from), and the limits of the interpreter that
    [json.loads] obeys. *)
Record config := {
  OPENAI_API_KEY : option str;
  OPENAI_BASE_URL : option str;
  TOGETHER_API_KEY : option str;
  LLM_MODEL : str;
  TEMPERATURE : str;
  LIMITS : Json.limits
}.

(** The keyword arguments [_build_llm] hands to [ChatOpenAI]. *)
Record llm_kwargs := {
  model : str;
  temperature : str;
  openai_api_key : str;
  openai_api_base : option str
}.

(** What the provider does with one request: [ChatOpenAI(...)],
    [LLMChain(...)] and [chain.run(...)] end with a text (or nothing), or
    with an exception whose [str()] is [message]. *)
Inductive reply :=
| Completed (raw_output : option str)
| Failed (message : str).

Definition provider := llm_kwargs -> str -> reply.

Definition NO_KEY_ERROR : str :=
  lit "No API key configured. Set OPENAI_API_KEY (for OpenRouter/OpenAI) or TOGETHER_API_KEY.".
Definition NO_OPENAI_KEY : str :=
  lit "OPENAI_API_KEY not set. Set OPENAI_API_KEY (or configure Together AI separately).".
Definition LLM_CALL_FAILED : str := lit "LLM call failed".
Definition NO_JSON_FOUND : str := lit "Could not find JSON in model output".
Definition JSON_DECODE_ERROR : str := lit "JSON decode error".

(** The exceptions of [json.loads] that line 172 does not catch. *)
Definition VALUE_ERROR : str := lit "ValueError".
Definition RECURSION_ERROR : str := lit "RecursionError".

Definition _build_llm (cfg : config) : py_result llm_kwargs :=
  match cfg.(OPENAI_API_KEY) with
  | Some key =>
      if negb (truthy key) then Raise NO_OPENAI_KEY
      else
        Return {| model := cfg.(LLM_MODEL);
                  temperature := cfg.(TEMPERATURE);
                  openai_api_key := key;
                  openai_api_base :=
                    if truthy_opt cfg.(OPENAI_BASE_URL)
                    then cfg.(OPENAI_BASE_URL) else None |}
  | None => Raise NO_OPENAI_KEY
  end.

(** [data.get(key, '')]: [AttributeError] unless [data] is a [dict]. *)
Definition data_get (data : Json.value) (key : str) : py_result Json.value :=
  match data with
  | Json.Object d =>
      Return (match Json.dict_get d key with
              | Some v => v
              | None => Json.Str []
              end)
  | _ => Raise (lit "AttributeError")
  end.

(** One entry of the result literal (lines 177-180): the test
    [isinstance(data.get(key, ''), str)] first, then the chosen branch. *)
Definition normalize_field (data : Json.value) (key : str) : py_result pyval :=
  v <- data_get data key ;;;
  match v with
  | Json.Str _ =>
      v' <- data_get data key ;;;
      match v' with
      | Json.Str s => Return (PStr (strip s))
      | _ => Raise (lit "AttributeError")
      end
  | _ => Return (PStr [])
  end.

(** Lines 176-183: the normalization step. *)
Definition normalize (data : Json.value) : py_result pydict :=
  reflection <- normalize_field data (lit "reflection") ;;;
  dream_summary <- normalize_field data (lit "dream_summary") ;;;
  mindset <- normalize_field data (lit "mindset") ;;;
  strategy <- normalize_field data (lit "strategy") ;;;
  Return [(lit "reflection", reflection);
          (lit "dream_summary", dream_summary);
          (lit "mindset", mindset);
          (lit "strategy", strategy)].

Definition error_dict (error : str) (raw : pyval) : pydict :=
  [(lit "error", PStr error); (lit "raw", raw)].

(** The body of the [try] block: the client is built, the prompt rendered
    and sent.  The second component lists the requests that reached the
    provider. *)
Definition call_llm (cfg : config) (llm : provider)
  (journal intention dream priorities : str)
  : py_result (option str) * list (llm_kwargs * str) :=
  match _build_llm cfg with
  | Raise e => (Raise e, [])
  | Return kwargs =>
      match Prompt.build_prompt journal intention dream priorities with
      | None => (Raise (lit "KeyError"), [])
      | Some prompt =>
          match llm kwargs prompt with
          | Completed raw_output => (Return raw_output, [(kwargs, prompt)])
          | Failed message => (Raise message, [(kwargs, prompt)])
          end
      end
  end.

(** [generate_reflection]: what the call returns or raises, and the requests
    made to the provider.  Only [JSONDecodeError] is caught around
    [json.loads]; its other exceptions leave the function. *)
Definition generate_reflection (cfg : config) (llm : provider)
  (journal intention dream priorities : option str)
  : py_result pydict * list (llm_kwargs * str) :=
  let journal := or_empty journal in
  let intention := or_empty intention in
  let dream := or_empty dream in
  let priorities := or_empty priorities in
  if negb (truthy_opt cfg.(OPENAI_API_KEY)
           || truthy_opt cfg.(TOGETHER_API_KEY))
  then (Return (error_dict NO_KEY_ERROR PNone), [])
  else
    match call_llm cfg llm journal intention dream priorities with
    | (Raise exc, calls) =>
        (Return (error_dict LLM_CALL_FAILED (PStr exc)), calls)
    | (Return raw_output, calls) =>
        let raw_text := strip (or_empty raw_output) in
        match _extract_json_from_text (Some raw_text) with
        | None => (Return (error_dict NO_JSON_FOUND (PStr raw_text)), calls)
        | Some json_text =>
            if negb (truthy json_text)
            then (Return (error_dict NO_JSON_FOUND (PStr raw_text)), calls)
            else
              match Json.loads cfg.(LIMITS) json_text with
              | Json.JSONDecodeError =>
                  (Return (error_dict JSON_DECODE_ERROR (PStr json_text)),
                   calls)
              | Json.ValueError => (Raise VALUE_ERROR, calls)
              | Json.RecursionError => (Raise RECURSION_ERROR, calls)
              | Json.Loaded data => (normalize data, calls)
              end
        end
    end.

(** ** Fence stripping as the specification words it

    A leading fence token (optionally tagged [json]) and a trailing fence
    token are removed, whitespace around them is trimmed, and nothing else
    is touched.  Used only to compare with [fenced_removed]. *)

Definition FENCE : str := lit "```".

Definition drop_leading_fence (s : str) : str :=
  if startswith s FENCE then
    let after := skipn 3 s in
    if startswith after (lit "json") then skipn 4 after else after
  else s.

Definition drop_trailing_fence (s : str) : str :=
  if endswith s FENCE then firstn (length s - 3) s else s.

Definition strip_outer_fences (text : str) : str :=
  strip (drop_trailing_fence (strip (drop_leading_fence (strip text)))).

(** A text that is empty or starts with a character other than
    whitespace. *)
Definition unspaced (s : str) : Prop :=
  match s with
  | [] => True
  | c :: _ => isspace c = false
  end.

(** [without_fences text out]: [out] is [text] without its fence tokens.
    A text with no three backticks in a row is kept.  Otherwise the first
    such three, standing after [a], go together with the tag [json] when
    it follows them directly and with all the whitespace [w] that follows
    next; [a] is kept, and so on for the rest of the text. *)
Inductive without_fences : str -> str -> Prop :=
| wf_clean s :
    contains s FENCE = false -> without_fences s s
| wf_token a tag w rest out :
    contains (a ++ [backtick; backtick]) FENCE = false ->
    tag = lit "json"
    \/ tag = [] /\ startswith (w ++ rest) (lit "json") = false ->
    forallb isspace w = true ->
    unspaced rest ->
    without_fences rest out ->
    without_fences (a ++ FENCE ++ tag ++ w ++ rest) (a ++ out).

(** A [{] somewhere before a [}]. *)
Definition brace_pair (s : str) : Prop :=
  exists a m b, s = a ++ lbrace :: m ++ rbrace :: b.

Definition SUCCESS_KEYS : list str :=
  [lit "reflection"; lit "dream_summary"; lit "mindset"; lit "strategy"].

Definition ERROR_KEYS : list str := [lit "error"; lit "raw"].

(** The fixed text of the prompt around the four labelled slots. *)
Definition PROMPT_HEAD : str :=
  Prompt.line "You are a daily reflection and planning assistant."
  ++ Prompt.line "Your goals:"
  ++ Prompt.line "1) Reflect on the user's morning journal and dream input."
  ++ Prompt.line "2) Interpret the user's emotional and mental state."
  ++ Prompt.line "3) Understand their intention and top 3 priorities."
  ++ Prompt.line "4) Generate a practical, energy-aligned, time-aware strategy for the day."
  ++ [newline]
  ++ Prompt.line "INPUT:".

Definition PROMPT_TAIL : str :=
  [newline; newline]
  ++ Prompt.line "OUTPUT (in JSON):"
  ++ Prompt.line "Return a JSON object exactly with these keys:"
  ++ Prompt.line "- reflection (short paragraph)"
  ++ Prompt.line "- dream_summary (short paragraph)"
  ++ Prompt.line "- mindset (short paragraph)"
  ++ Prompt.line "- strategy (short paragraph, include time-aligned suggestions if possible)"
  ++ [newline]
  ++ Prompt.line "Example:"
  ++ lit "{" ++ quoted "reflection" ++ lit ":" ++ quoted "..." ++ lit ","
  ++ quoted "dream_summary" ++ lit ":" ++ quoted "..." ++ lit ","
  ++ quoted "mindset" ++ lit ":" ++ quoted "..." ++ lit ","
  ++ quoted "strategy" ++ lit ":" ++ quoted "..." ++ Prompt.line "}".

Definition rendered_prompt (journal intention dream priorities : str) : str :=
  PROMPT_HEAD
  ++ lit "Morning Journal: " ++ journal
  ++ newline :: lit "Intention: " ++ intention
  ++ newline :: lit "Dream: " ++ dream
  ++ newline :: lit "Top 3 Priorities: " ++ priorities
  ++ PROMPT_TAIL.

(** Configurations and provider replies used as concrete inputs.  The
    limits are the defaults of CPython 3.11 with a few frames in use. *)
Definition cpython_limits : Json.limits :=
  {| Json.int_max_str_digits := 4300; Json.recursion_room := 993 |}.

Definition cfg_openai : config :=
  {| OPENAI_API_KEY := Some (lit "sk-test");
     OPENAI_BASE_URL := None;
     TOGETHER_API_KEY := None;
     LLM_MODEL := lit "gpt-4o-mini";
     TEMPERATURE := lit "0.7";
     LIMITS := cpython_limits |}.

Definition cfg_none : config :=
  {| OPENAI_API_KEY := None;
     OPENAI_BASE_URL := None;
     TOGETHER_API_KEY := Some [];
     LLM_MODEL := lit "gpt-4o-mini";
     TEMPERATURE := lit "0.7";
     LIMITS := cpython_limits |}.

Definition cfg_together : config :=
  {| OPENAI_API_KEY := None;
     OPENAI_BASE_URL := None;
     TOGETHER_API_KEY := Some (lit "tg-test");
     LLM_MODEL := lit "gpt-4o-mini";
     TEMPERATURE := lit "0.7";
     LIMITS := cpython_limits |}.

Definition kwargs_openai : llm_kwargs :=
  {| model := lit "gpt-4o-mini";
     temperature := lit "0.7";
     openai_api_key := lit "sk-test";
     openai_api_base := None |}.

Definition replies (text : str) : provider :=
  fun _ _ => Completed (Some text).

Definition malformed_json : str := lit "{" ++ quoted "reflection" ++ lit ": }".

Definition malformed_reply : str :=
  lit "Sure! " ++ malformed_json ++ lit " Hope that helps!".

(** Replies whose object holds an integer literal of 4301 digits, well
    formed and malformed after it. *)
Definition long_integer_reply : str :=
  lit "{" ++ quoted "reflection" ++ lit ":" ++ repeat 49%N 4301 ++ lit "}".

Definition malformed_long_reply : str :=
  lit "{" ++ quoted "reflection" ++ lit ":" ++ repeat 49%N 4301
  ++ lit " x}".

Definition good_reply : str :=
  lit "Sure! {" ++ quoted "reflection" ++ lit ":" ++ quoted "r" ++ lit ","
  ++ quoted "dream_summary" ++ lit ":" ++ quoted "d" ++ lit ","
  ++ quoted "mindset" ++ lit ":" ++ quoted "m" ++ lit ","
  ++ quoted "strategy" ++ lit ":" ++ quoted "s" ++ lit "} Hope that helps!".

(** A reply whose reflection is the escape of a surrogate. *)
Definition surrogate_reply : str :=
  lit "{" ++ quoted "reflection" ++ lit ":" ++ quoted "\ud800" ++ lit "}".

(** A match of a pattern is a non-empty prefix: [m] leaves a proper
    suffix of the text. *)
Definition consumes (m : str -> option str) : Prop :=
  forall s r, m s = Some r -> exists w, w <> [] /\ s = w ++ r.

(** The value normalization gives a key of a mapping. *)
Definition field_value (d : Json.dict) (key : str) : str :=
  match Json.dict_get d key with
  | Some (Json.Str s) => strip s
  | _ => []
  end.

(** The ways the call ends once the credential check is passed: a record,
    or one of the two exceptions of the decoder that are not caught. *)
Inductive ending : py_result pydict -> Prop :=
| end_llm exc : ending (Return (error_dict LLM_CALL_FAILED (PStr exc)))
| end_no_json raw : ending (Return (error_dict NO_JSON_FOUND (PStr raw)))
| end_decode raw : ending (Return (error_dict JSON_DECODE_ERROR (PStr raw)))
| end_value_error : ending (Raise VALUE_ERROR)
| end_recursion_error : ending (Raise RECURSION_ERROR)
| end_result d : ending (normalize (Json.Object d)).

(** ** Storage: [db/database.py]

    The file holds at most the one table [entries].  Every function opens
    a connection, runs one statement, commits and closes, so the state
    between calls is the content of the file.  Failures of the file system
    and of memory are outside the model. *)

Module Db.

(** A value of a column: [NULL], the [INTEGER] key, or [TEXT]. *)
Inductive cell :=
| Null
| Integer (z : Z)
| Text (s : str).

(** A row as [fetchall] returns it: the tuple of the ten columns [id],
    [date], [journal], [intention], [dream], [priorities], [reflection],
    [strategy], [dream_summary], [mindset]. *)
Definition row := list cell.

(** The table with its entry in [sqlite_sequence], which [AUTOINCREMENT]
    keeps: the largest key ever given. *)
Record table := {
  rows : list row;
  seq : Z
}.

(** [None]: the table has not been created. *)
Definition database := option table.

Definition MAX_ROWID : Z := 9223372036854775807.

(** The limits on a text: the largest [int] of C, which the binding of a
    parameter checks, and the largest string and the largest row the
    library takes ([SQLITE_MAX_LENGTH], a billion bytes unless the library
    was built otherwise). *)
Definition INT_MAX : N := 2147483647.
Definition SQLITE_MAX_LENGTH : N := 1000000000.

(** The exceptions, by their message: [sqlite3.OperationalError] for the
    first two, [sqlite3.DataError], [OverflowError]; and
    [UnicodeEncodeError] by its name, its message quoting the character
    and its position. *)
Definition NO_SUCH_TABLE : str := lit "no such table: entries".
Definition DATABASE_FULL : str := lit "database or disk is full".
Definition TOO_BIG : str := lit "string or blob too big".
Definition STRING_TOO_LONG : str := lit "string longer than INT_MAX bytes".
Definition UNICODE_ENCODE_ERROR : str := lit "UnicodeEncodeError".

(** A [str] is encoded in UTF-8 to be bound, which refuses the code
    points of surrogates, U+D800 to U+DFFF. *)
Definition surrogate (c : N) : bool :=
  ((55296 <=? c) && (c <=? 57343))%N.

Definition encodable (s : str) : bool :=
  forallb (fun c => negb (surrogate c)) s.

Definition utf8_width (c : N) : N :=
  if (c <? 128)%N then 1
  else if (c <? 2048)%N then 2
  else if (c <? 65536)%N then 3
  else 4.

Definition utf8_length (s : str) : N :=
  fold_right (fun c n => (utf8_width c + n)%N) 0%N s.

(** The SQL value of a Python argument: [None] is [NULL], a [str] is
    [TEXT]. *)
Definition sql_value (v : pyval) : cell :=
  match v with
  | PNone => Null
  | PStr s => Text s
  end.

(** Binding an argument to [?]: a [str] is encoded, then its length in
    bytes is checked, by the module first and by the library next. *)
Definition bind_param (v : pyval) : py_result cell :=
  match v with
  | PNone => Return Null
  | PStr s =>
      if negb (encodable s) then Raise UNICODE_ENCODE_ERROR
      else if (INT_MAX <? utf8_length s)%N then Raise STRING_TOO_LONG
      else if (SQLITE_MAX_LENGTH <? utf8_length s)%N then Raise TOO_BIG
      else Return (Text s)
  end.

(** The arguments are bound one after the other; the first that cannot
    be bound ends the call. *)
Fixpoint bind_parameters (parameters : list pyval)
  : py_result (list cell) :=
  match parameters with
  | [] => Return []
  | v :: rest =>
      py_bind (bind_param v) (fun c =>
      py_bind (bind_parameters rest) (fun cs =>
      Return (c :: cs)))
  end.

(** [e[i]] on a row, [NULL] standing for a missing column. *)
Definition column (i : nat) (r : row) : cell := nth i r Null.

Definition rowid (r : row) : Z :=
  match column 0 r with
  | Integer z => z
  | _ => 0%Z
  end.

(** The largest key that ever existed in the table. *)
Definition largest_rowid (t : table) : Z :=
  fold_left Z.max (map rowid t.(rows)) t.(seq).

(** The bytes of a number written as a variable-length integer. *)
Definition varint_length (v : N) : N :=
  if (v <? 2 ^ 7)%N then 1
  else if (v <? 2 ^ 14)%N then 2
  else if (v <? 2 ^ 21)%N then 3
  else if (v <? 2 ^ 28)%N then 4
  else if (v <? 2 ^ 35)%N then 5
  else if (v <? 2 ^ 42)%N then 6
  else if (v <? 2 ^ 49)%N then 7
  else if (v <? 2 ^ 56)%N then 8
  else 9.

(** The bytes of a value in the stored record: those of its type in the
    header and those of its content.  A text of [n] bytes has the type
    [2n + 13]; an integer takes 0, 1, 2, 3, 4, 6 or 8 bytes by its
    size. *)
Definition type_length (c : cell) : N :=
  match c with
  | Text s => varint_length (2 * utf8_length s + 13)
  | _ => 1
  end.

Definition integer_length (z : Z) : N :=
  let u := (if z <? 0 then - z - 1 else z)%Z in
  if (u <=? 127)%Z then (if (0 <=? z)%Z && (z <=? 1)%Z then 0 else 1)
  else if (u <=? 32767)%Z then 2
  else if (u <=? 8388607)%Z then 3
  else if (u <=? 2147483647)%Z then 4
  else if (u <=? 140737488355327)%Z then 6
  else 8.

Definition data_length (c : cell) : N :=
  match c with
  | Null => 0
  | Integer z => integer_length z
  | Text s => utf8_length s
  end.

(** The size of the record of a row with these values after the key: the
    key is the row's address and takes only the byte of a [NULL] in the
    header, whose own length takes one byte more (the header of ten
    columns is short enough for that). *)
Definition record_size (values : list cell) : N :=
  (2 + fold_right (fun c n => type_length c + data_length c + n) 0 values)%N.

(** [CREATE TABLE IF NOT EXISTS entries (...)] *)
Definition init_db (db : database) : database :=
  match db with
  | Some t => Some t
  | None => Some {| rows := []; seq := 0 |}
  end.

(** [INSERT INTO entries (date, ..., mindset) VALUES (?, ..., ?)]: the
    columns are named in the order of the table; the key is one more than
    the largest ever given, and the statement fails once that is the
    largest integer; then the record is built, which fails when it is
    larger than the library takes. *)
Definition insert (t : table) (values : list cell) : py_result table :=
  let largest := largest_rowid t in
  if (largest >=? MAX_ROWID)%Z then Raise DATABASE_FULL
  else if (SQLITE_MAX_LENGTH <? record_size values)%N then Raise TOO_BIG
  else Return {| rows := t.(rows) ++ [Integer (largest + 1) :: values];
                 seq := largest + 1 |}.

(** A parameter with a default value: [None] when the caller leaves it
    out. *)
Definition arg_or (default : pyval) (arg : option pyval) : pyval :=
  match arg with
  | Some v => v
  | None => default
  end.

(** [cursor.execute] on the statement above, with the commit.  The
    statement is compiled first, which fails without the table; then the
    arguments are bound; then it runs.  An exception leaves the file as
    it was. *)
Definition execute_insert (db : database) (parameters : list pyval)
  : py_result unit * database :=
  match db with
  | None => (Raise NO_SUCH_TABLE, db)
  | Some t =>
      match py_bind (bind_parameters parameters) (insert t) with
      | Return t' => (Return tt, Some t')
      | Raise e => (Raise e, db)
      end
  end.

Definition save_entry (db : database)
  (date journal intention dream priorities reflection strategy : pyval)
  (dream_summary mindset : option pyval) : py_result unit * database :=
  execute_insert db
    [date; journal; intention; dream; priorities; reflection; strategy;
     arg_or (PStr []) dream_summary; arg_or (PStr []) mindset].

(** The comparison [date = ?], true only for two equal [TEXT] values: a
    comparison with [NULL] is never true, and neither side is a number
    here. *)
Definition sql_eq (a b : cell) : bool :=
  match a, b with
  | Text x, Text y => str_eqb x y
  | _, _ => false
  end.

(** [SELECT * FROM entries WHERE date = ?] and [fetchall()]: the scan of
    the table goes by increasing key, the order of insertion. *)
Definition get_entry_by_date (db : database) (date : pyval)
  : py_result (list row) :=
  match db with
  | None => Raise NO_SUCH_TABLE
  | Some t =>
      py_bind (bind_param date) (fun d =>
      Return (filter (fun r => sql_eq (column 1 r) d) t.(rows)))
  end.

(** A call of one of the two functions that write, and a sequence of
    calls on a file that starts without the table. *)
Inductive call :=
| Init
| Save (date journal intention dream priorities reflection strategy : pyval)
       (dream_summary mindset : option pyval).

Definition apply_call (db : database) (c : call) : database :=
  match c with
  | Init => init_db db
  | Save date journal intention dream priorities reflection strategy
         dream_summary mindset =>
      snd (save_entry db date journal intention dream priorities reflection
             strategy dream_summary mindset)
  end.

Definition run (calls : list call) : database :=
  fold_left apply_call calls None.

(** A text that can be bound, and an argument that can. *)
Definition bindable (s : str) : bool :=
  encodable s && (utf8_length s <=? SQLITE_MAX_LENGTH)%N.

Definition bindable_value (v : pyval) : bool :=
  match v with
  | PNone => true
  | PStr s => bindable s
  end.

(** Values whose record the library takes. *)
Definition fits (values : list cell) : bool :=
  (record_size values <=? SQLITE_MAX_LENGTH)%N.




(** Keys above [low], each above the one before. *)
Fixpoint increasing_from (low : Z) (ids : list Z) : Prop :=
  match ids with
  | [] => True
  | i :: rest => (low < i)%Z /\ increasing_from i rest
  end.

(** What holds of every table the functions produce. *)
Definition well_keyed (t : table) : Prop :=
  increasing_from 0 (map rowid t.(rows))
  /\ Forall (fun i => (i <= t.(seq))%Z) (map rowid t.(rows))
  /\ (0 <= t.(seq))%Z.

End Db.

(** ** The form handler: [main.py]

    The block run when the form is submitted (lines 40-69), without the
    calls that only draw the page: the agent is asked, the four values
    are read from its answer with an empty default, and the entry is
    saved under today's date.  [today] is
    [datetime.date.today().isoformat()]. *)

Module Main.

(** [d.get(key, default)] *)
Definition get (d : pydict) (key : str) (default : pyval) : pyval :=
  match item d key with
  | Some v => v
  | None => default
  end.

Definition on_submit (cfg : config) (llm : provider) (today : str)
  (db : Db.database) (journal dream intention priorities : str)
  : py_result unit * Db.database * list (llm_kwargs * str) :=
  match generate_reflection cfg llm (Some journal) (Some intention)
          (Some dream) (Some priorities) with
  | (Raise exc, calls) => (Raise exc, db, calls)
  | (Return ai_response, calls) =>
      let reflection := get ai_response (lit "reflection") (PStr []) in
      let dream_summary := get ai_response (lit "dream_summary") (PStr []) in
      let mindset_insight := get ai_response (lit "mindset") (PStr []) in
      let strategy := get ai_response (lit "strategy") (PStr []) in
      let saved :=
        Db.save_entry db (PStr today) (PStr journal) (PStr intention)
          (PStr dream) (PStr priorities) reflection strategy
          (Some dream_summary) (Some mindset_insight) in
      (fst saved, snd saved, calls)
  end.

(** The sidebar (line 87): the entries of the selected date. *)
Definition sidebar (db : Db.database) (selected_date : str)
  : py_result (list Db.row) :=
  Db.get_entry_by_date db (PStr selected_date).

End Main.

(** The configuration with another fallback credential. *)
Definition with_together (cfg : config) (key : option str) : config :=
  {| OPENAI_API_KEY := cfg.(OPENAI_API_KEY);
     OPENAI_BASE_URL := cfg.(OPENAI_BASE_URL);
     TOGETHER_API_KEY := key;
     LLM_MODEL := cfg.(LLM_MODEL);
     TEMPERATURE := cfg.(TEMPERATURE);
     LIMITS := cfg.(LIMITS) |}.

(** A provider whose call fails. *)
Definition fails (message : str) : provider := fun _ _ => Failed message.

Definition fenced_reply : str :=
  lit "```json" ++ newline :: lit "{" ++ quoted "a" ++ lit ":1}"
  ++ newline :: lit "```".

(** * Properties *)

(** ** Strings *)

Section StrFacts.

Lemma char_eqb_eq (a b : char) : char_eqb a b = true <-> a = b.
Proof. apply N.eqb_eq. Qed.

Lemma char_eqb_refl (a : char) : char_eqb a a = true.
Proof. apply N.eqb_refl. Qed.

Lemma char_eqb_neq (a b : char) : char_eqb a b = false <-> a <> b.
Proof. apply N.eqb_neq. Qed.

Lemma str_eqb_eq (a b : str) : str_eqb a b = true <-> a = b.
Proof.
  revert b; induction a as [|x a IH]; intros [|y b]; simpl;
    try (split; [discriminate | congruence]); [tauto|].
  rewrite andb_true_iff, char_eqb_eq, IH.
  split; [intros [-> ->]; reflexivity | intros H; inversion H; auto].
Qed.

Lemma startswith_iff (s p : str) :
  startswith s p = true <-> exists r, s = p ++ r.
Proof.
  revert s; induction p as [|x p IH]; intros s; simpl.
  - split; [exists s; reflexivity | reflexivity].
  - destruct s as [|y s].
    + split; [discriminate | intros [r H]; discriminate].
    + rewrite andb_true_iff, char_eqb_eq, IH. split.
      * intros [-> [r ->]]. exists r; reflexivity.
      * intros [r H]. inversion H; subst. split; [reflexivity | eauto].
Qed.

Lemma startswith_app (s p r : str) :
  startswith s p = true -> startswith (s ++ r) p = true.
Proof.
  rewrite !startswith_iff. intros [q ->]. exists (q ++ r).
  now rewrite app_assoc.
Qed.

Lemma startswith_single (s : str) (c : char) :
  startswith s [c] = true <-> exists r, s = c :: r.
Proof. rewrite startswith_iff. reflexivity. Qed.

Lemma endswith_single (s : str) (c : char) :
  endswith s [c] = true <-> exists r, s = r ++ [c].
Proof.
  unfold endswith. simpl rev. rewrite startswith_single. split.
  - intros [r H]. exists (rev r).
    rewrite <- (rev_involutive s), H. reflexivity.
  - intros [r ->]. exists (rev r). now rewrite rev_app_distr.
Qed.

(** *** [lstrip], [rstrip], [strip] *)

Lemma lstrip_split (s : str) :
  exists w, s = w ++ lstrip s /\ forallb isspace w = true.
Proof.
  induction s as [|c s [w [E W]]]; simpl.
  - exists []; auto.
  - destruct (isspace c) eqn:Hc.
    + exists (c :: w). simpl. rewrite Hc, W, <- E. auto.
    + exists []; auto.
Qed.

Lemma lstrip_head (s r : str) (c : char) :
  lstrip s = c :: r -> isspace c = false.
Proof.
  induction s as [|x s IH]; simpl; [discriminate|].
  destruct (isspace x) eqn:Hx; [exact IH|].
  intros H; inversion H; subst; assumption.
Qed.

Lemma lstrip_fix (s : str) :
  match s with [] => True | c :: _ => isspace c = false end ->
  lstrip s = s.
Proof. destruct s as [|c r]; simpl; [reflexivity | intros ->; reflexivity]. Qed.

Lemma lstrip_idem (s : str) : lstrip (lstrip s) = lstrip s.
Proof.
  apply lstrip_fix. destruct (lstrip s) eqn:E; [exact I|].
  eapply lstrip_head; eauto.
Qed.

Lemma lstrip_length (s : str) : length (lstrip s) <= length s.
Proof.
  destruct (lstrip_split s) as [w [E _]].
  rewrite E at 2. rewrite length_app. lia.
Qed.

Lemma rstrip_split (s : str) :
  exists w, s = rstrip s ++ w /\ forallb isspace w = true.
Proof.
  unfold rstrip. destruct (lstrip_split (rev s)) as [w [E W]].
  exists (rev w). split.
  - rewrite <- rev_app_distr, <- E, rev_involutive. reflexivity.
  - rewrite forallb_forall in *. intros x Hx. apply W, in_rev, Hx.
Qed.

Lemma rstrip_idem (s : str) : rstrip (rstrip s) = rstrip s.
Proof. unfold rstrip. now rewrite rev_involutive, lstrip_idem. Qed.

Lemma strip_split (s : str) :
  exists w1 w2, s = w1 ++ strip s ++ w2
                /\ forallb isspace w1 = true /\ forallb isspace w2 = true.
Proof.
  unfold strip. destruct (lstrip_split s) as [w1 [E1 W1]].
  destruct (rstrip_split (lstrip s)) as [w2 [E2 W2]].
  exists w1, w2. split; [|auto]. rewrite <- E2. exact E1.
Qed.

Lemma lstrip_rstrip (t : str) :
  lstrip t = t -> lstrip (rstrip t) = rstrip t.
Proof.
  intros Ht. apply lstrip_fix.
  destruct (rstrip t) as [|c r] eqn:E; [exact I|].
  destruct (rstrip_split t) as [w [Ew _]]. rewrite E in Ew.
  rewrite Ew in Ht. simpl in Ht.
  destruct (isspace c) eqn:Hc; [|reflexivity].
  exfalso. assert (L := lstrip_length (r ++ w)).
  rewrite Ht in L. simpl in L. lia.
Qed.

Lemma strip_idem (s : str) : strip (strip s) = strip s.
Proof.
  unfold strip. rewrite (lstrip_rstrip (lstrip s) (lstrip_idem s)).
  apply rstrip_idem.
Qed.

(** A text that neither starts nor ends with whitespace is its own trim. *)
Lemma strip_fix (c e : char) (m : str) :
  isspace c = false -> isspace e = false ->
  strip (c :: m ++ [e]) = c :: m ++ [e].
Proof.
  intros Hc He. unfold strip. simpl lstrip. rewrite Hc.
  unfold rstrip. simpl rev. rewrite rev_app_distr. simpl.
  rewrite He. simpl. rewrite rev_app_distr, rev_involutive. reflexivity.
Qed.

End StrFacts.

(** *** Membership and deletion *)

Section Contains.

Lemma contains_head (s p : str) :
  contains s p = false -> startswith s p = false.
Proof. destruct s; simpl; intros H; apply orb_false_elim in H; tauto. Qed.

Lemma contains_tail (a b p : str) :
  contains (a ++ b) p = false -> contains b p = false.
Proof.
  induction a as [|c a IH]; simpl; [auto|].
  intros H. apply orb_false_elim in H. tauto.
Qed.

Lemma contains_prefix (a b p : str) :
  contains (a ++ b) p = false -> contains a p = false.
Proof.
  induction a as [|c a IH]; intros H.
  - simpl in H. apply contains_head in H.
    destruct p; [destruct b; discriminate | reflexivity].
  - simpl in H. apply orb_false_elim in H. destruct H as [H1 H2].
    simpl. rewrite (IH H2), orb_false_r.
    destruct (startswith (c :: a) p) eqn:E; [|reflexivity].
    apply (startswith_app _ _ b) in E. simpl in E. congruence.
Qed.

Lemma contains_single (s : str) (c : char) :
  contains s [c] = false <-> ~ In c s.
Proof.
  induction s as [|x s IH]; simpl; [tauto|].
  rewrite andb_true_r, orb_false_iff, IH, char_eqb_neq. intuition.
Qed.

Lemma subseq_refl (s : str) : subseq s s.
Proof. induction s; constructor; assumption. Qed.

Lemma subseq_skip (w s : str) : subseq s (w ++ s).
Proof. induction w; simpl; [apply subseq_refl | constructor; assumption]. Qed.

Lemma subseq_take (s w : str) : subseq s (s ++ w).
Proof.
  induction s as [|c s IH]; simpl; [|constructor; assumption].
  induction w; constructor; assumption.
Qed.

Lemma subseq_trans (a b c : str) : subseq a b -> subseq b c -> subseq a c.
Proof.
  intros Hab Hbc. revert a Hab.
  induction Hbc as [|x b c Hbc IH|x b c Hbc IH]; intros a Hab.
  - assumption.
  - inversion Hab; subst; constructor; auto.
  - constructor; auto.
Qed.

Lemma subseq_In (a b : str) (c : char) : subseq a b -> In c a -> In c b.
Proof. induction 1; simpl; intuition. Qed.

Lemma strip_subseq (s : str) : subseq (strip s) s.
Proof.
  destruct (strip_split s) as [w1 [w2 [E _]]]. rewrite E at 2.
  eapply subseq_trans; [apply subseq_take | apply subseq_skip].
Qed.

End Contains.

(** ** Substitution *)

Section Substitution.

Variable m : str -> option str.

Hypothesis m_consumes : consumes m.

Lemma consumes_length (s r : str) : m s = Some r -> length r < length s.
Proof.
  intros H. destruct (m_consumes _ _ H) as [w [Hw ->]].
  rewrite length_app. destruct w; [congruence | simpl; lia].
Qed.

Lemma sub_go_fuel (f f' : nat) (s : str) :
  length s <= f -> length s <= f' -> Re.sub_go m f s = Re.sub_go m f' s.
Proof.
  revert f' s. induction f as [|f IH]; intros [|f'] [|c r]; simpl;
    try reflexivity; try lia.
  intros Hf Hf'. destruct (m (c :: r)) as [rest|] eqn:E.
  - apply consumes_length in E. simpl in E. apply IH; lia.
  - f_equal. apply IH; lia.
Qed.

Lemma sub_nil : Re.sub m [] = [].
Proof. reflexivity. Qed.

Lemma sub_cons (c : char) (r : str) :
  Re.sub m (c :: r) =
  match m (c :: r) with
  | Some rest => Re.sub m rest
  | None => c :: Re.sub m r
  end.
Proof.
  unfold Re.sub. simpl. destruct (m (c :: r)) as [rest|] eqn:E.
  - apply consumes_length in E. simpl in E. apply sub_go_fuel; lia.
  - reflexivity.
Qed.

(** Induction on the length of the text, the way the scan proceeds. *)
Lemma sub_ind (P : str -> Prop) :
  P [] ->
  (forall c r rest, m (c :: r) = Some rest -> P rest -> P (c :: r)) ->
  (forall c r, m (c :: r) = None -> P r -> P (c :: r)) ->
  forall s, P s.
Proof.
  intros Hnil Hmatch Hcopy s.
  remember (length s) as n eqn:Hn. assert (Hle : length s <= n) by lia.
  clear Hn. revert s Hle.
  induction n as [|n IH]; intros [|c r] Hle; simpl in Hle; auto; try lia.
  destruct (m (c :: r)) as [rest|] eqn:E.
  - apply (Hmatch _ _ _ E). apply IH.
    apply consumes_length in E. simpl in E. lia.
  - apply (Hcopy _ _ E). apply IH. lia.
Qed.

Lemma sub_subseq (s : str) : subseq (Re.sub m s) s.
Proof.
  induction s as [|c r rest E IH|c r E IH] using sub_ind.
  - constructor.
  - rewrite sub_cons, E. destruct (m_consumes _ _ E) as [w [_ Hw]].
    rewrite Hw. eapply subseq_trans; [exact IH | apply subseq_skip].
  - rewrite sub_cons, E. constructor. exact IH.
Qed.

End Substitution.

(** Where the pattern matches nowhere, the text is returned as it is. *)
Lemma sub_no_match (m : str -> option str) (s : str) :
  (forall a b, s = a ++ b -> m b = None) -> Re.sub m s = s.
Proof.
  unfold Re.sub. generalize (length s) as f. intros f. revert f.
  induction s as [|c r IH]; intros f H; [destruct f; reflexivity|].
  destruct f as [|f]; [reflexivity|]. simpl.
  rewrite (H [] (c :: r) eq_refl). f_equal. apply IH.
  intros a b ->. apply (H (c :: a) b). reflexivity.
Qed.

(** ** The fence patterns *)

Section Fences.

Lemma FENCE_chars : FENCE = [backtick; backtick; backtick].
Proof. reflexivity. Qed.

Lemma fence_open_consumes : consumes Re.fence_open.
Proof.
  intros s r. unfold Re.fence_open, Re.after_fence.
  destruct (startswith s (lit "```")) eqn:E; [|discriminate].
  apply startswith_iff in E. destruct E as [q ->].
  change (skipn 3 (lit "```" ++ q)) with q.
  destruct (startswith q (lit "json")) eqn:J.
  - apply startswith_iff in J. destruct J as [q' ->].
    change (skipn 4 (lit "json" ++ q')) with q'.
    intros H. injection H as <-.
    destruct (lstrip_split q') as [w [Ew _]].
    exists (lit "```" ++ lit "json" ++ w). split; [now simpl|].
    rewrite Ew at 1. now rewrite <- !app_assoc.
  - intros H. injection H as <-.
    destruct (lstrip_split q) as [w [Ew _]].
    exists (lit "```" ++ w). split; [now simpl|].
    rewrite Ew at 1. now rewrite <- !app_assoc.
Qed.

Lemma fence_open_none (s : str) :
  startswith s FENCE = false -> Re.fence_open s = None.
Proof. unfold Re.fence_open. fold FENCE. now intros ->. Qed.

Lemma fence_open_none_inv (s : str) :
  Re.fence_open s = None -> startswith s FENCE = false.
Proof.
  unfold Re.fence_open. fold FENCE.
  destruct (startswith s FENCE); [discriminate | reflexivity].
Qed.

Lemma fence_close_none (s : str) :
  contains s FENCE = false -> Re.fence_close s = None.
Proof.
  intros H. unfold Re.fence_close. fold FENCE.
  destruct (lstrip_split s) as [w [Ew _]]. rewrite Ew in H.
  apply contains_tail, contains_head in H. now rewrite H.
Qed.

(** A text that does not start with two backticks keeps that property. *)
Lemma sub_open_two (s : str) :
  startswith s [backtick; backtick] = false ->
  startswith (Re.sub Re.fence_open s) [backtick; backtick] = false.
Proof.
  destruct s as [|c [|c' r]]; try reflexivity.
  - intros _. rewrite (sub_cons _ fence_open_consumes).
    rewrite fence_open_none by (simpl; now rewrite andb_false_r).
    simpl. now rewrite andb_false_r.
  - intros H. rewrite (sub_cons _ fence_open_consumes).
    simpl in H. rewrite andb_true_r in H.
    rewrite fence_open_none.
    2:{ rewrite FENCE_chars. simpl.
        destruct (char_eqb backtick c); [|reflexivity].
        destruct (char_eqb backtick c'); [discriminate | reflexivity]. }
    rewrite (sub_cons _ fence_open_consumes).
    destruct (char_eqb backtick c) eqn:Hc; [|simpl; now rewrite Hc].
    simpl in H. rewrite fence_open_none.
    2:{ rewrite FENCE_chars. simpl. now rewrite H. }
    simpl. now rewrite H, andb_false_r.
Qed.

(** No fence token is left by the first substitution. *)
Lemma sub_open_clean (s : str) :
  contains (Re.sub Re.fence_open s) FENCE = false.
Proof.
  induction s as [|c r rest E IH|c r E IH]
    using (sub_ind _ fence_open_consumes).
  - reflexivity.
  - now rewrite (sub_cons _ fence_open_consumes), E.
  - rewrite (sub_cons _ fence_open_consumes), E.
    apply fence_open_none_inv in E. rewrite FENCE_chars in *.
    simpl contains. rewrite IH, orb_false_r.
    simpl in E |- *.
    destruct (char_eqb backtick c); [|reflexivity]. simpl in E |- *.
    apply sub_open_two. simpl. exact E.
Qed.

Lemma startswith_long (x y p : str) :
  length p <= length x -> startswith (x ++ y) p = startswith x p.
Proof.
  revert x. induction p as [|c p IH]; intros [|d x] L; simpl in *;
    try reflexivity; try lia.
  rewrite IH by lia. reflexivity.
Qed.

(** The first fence token of a text: what stands before it is copied, the
    token goes with its tag and the whitespace after it, and the scan
    resumes there. *)
Lemma sub_open_first (a b : str) :
  contains (a ++ [backtick; backtick]) FENCE = false ->
  Re.sub Re.fence_open (a ++ FENCE ++ b)
  = a ++ Re.sub Re.fence_open (Re.after_fence b).
Proof.
  induction a as [|c a IH]; intros H.
  - change ([] ++ FENCE ++ b) with (backtick :: backtick :: backtick :: b).
    rewrite (sub_cons _ fence_open_consumes). reflexivity.
  - cbn [app] in *. rewrite (sub_cons _ fence_open_consumes).
    simpl contains in H. apply orb_false_elim in H. destruct H as [H1 H2].
    rewrite fence_open_none.
    + f_equal. apply IH, H2.
    + change (c :: a ++ FENCE ++ b)
        with ((c :: a) ++ [backtick; backtick] ++ backtick :: b).
      rewrite app_assoc, startswith_long; [exact H1|].
      rewrite FENCE_chars. simpl. rewrite length_app. simpl. lia.
Qed.

Lemma strip_clean (s p : str) :
  contains s p = false -> contains (strip s) p = false.
Proof.
  destruct (strip_split s) as [w1 [w2 [E _]]]. intros H. rewrite E in H.
  now apply contains_tail, contains_prefix in H.
Qed.

Lemma sub_close_clean (s : str) :
  contains s FENCE = false -> Re.sub Re.fence_close s = s.
Proof.
  intros H. apply sub_no_match. intros a b ->.
  apply fence_close_none. now apply contains_tail in H.
Qed.

(** On a text already free of fence tokens the second substitution has
    nothing to remove: line 108 only trims again. *)
Lemma fenced_removed_eq (text : str) :
  fenced_removed text = strip (Re.sub Re.fence_open text).
Proof.
  unfold fenced_removed.
  rewrite sub_close_clean by apply strip_clean, sub_open_clean.
  apply strip_idem.
Qed.

Lemma fenced_removed_clean (text : str) :
  contains (fenced_removed text) FENCE = false.
Proof. rewrite fenced_removed_eq. apply strip_clean, sub_open_clean. Qed.

Lemma fenced_removed_subseq (text : str) : subseq (fenced_removed text) text.
Proof.
  rewrite fenced_removed_eq.
  eapply subseq_trans; [apply strip_subseq|].
  apply sub_subseq, fence_open_consumes.
Qed.

Lemma fenced_removed_no_fence (text : str) :
  contains text FENCE = false -> fenced_removed text = strip text.
Proof.
  intros H. rewrite fenced_removed_eq. f_equal.
  apply sub_no_match. intros a b ->.
  apply fence_open_none. now apply contains_tail, contains_head in H.
Qed.

Lemma fenced_removed_empty : fenced_removed [] = [].
Proof. reflexivity. Qed.

End Fences.

(** ** Searching and slicing *)

Section Search.

Lemma in_split_first (c : char) (s : str) :
  In c s -> exists a r, s = a ++ c :: r /\ ~ In c a.
Proof.
  induction s as [|x s IH]; simpl; [tauto|].
  destruct (N.eq_dec x c) as [->|Hx].
  - intros _. exists [], s. auto.
  - intros [H|H]; [congruence|].
    destruct (IH H) as [a [r [-> Ha]]].
    exists (x :: a), r. split; [reflexivity|].
    simpl. intuition.
Qed.

Lemma in_split_last (c : char) (s : str) :
  In c s -> exists a b, s = a ++ c :: b /\ ~ In c b.
Proof.
  intros H. apply in_rev in H.
  destruct (in_split_first _ _ H) as [a [r [E Ha]]].
  exists (rev r), (rev a). split.
  - rewrite <- (rev_involutive s), E, rev_app_distr. simpl.
    now rewrite <- app_assoc.
  - now rewrite <- in_rev.
Qed.

(** The first occurrence is at or before any occurrence, the last one at
    or after. *)
Lemma first_le (c : char) (a r x y : str) :
  ~ In c a -> a ++ c :: r = x ++ c :: y -> length a <= length x.
Proof.
  intros Ha E. destruct (Nat.le_gt_cases (length a) (length x)); [assumption|].
  exfalso. apply Ha.
  assert (N : nth_error (a ++ c :: r) (length x) = Some c).
  { rewrite E, nth_error_app2, Nat.sub_diag by lia. reflexivity. }
  rewrite nth_error_app1 in N by assumption.
  eapply nth_error_In; eauto.
Qed.

Lemma last_ge (c : char) (a b x y : str) :
  ~ In c b -> a ++ c :: b = x ++ c :: y -> length x <= length a.
Proof.
  intros Hb E. destruct (Nat.le_gt_cases (length x) (length a)); [assumption|].
  exfalso. apply Hb.
  assert (N : nth_error (a ++ c :: b) (length x) = Some c).
  { rewrite E, nth_error_app2, Nat.sub_diag by lia. reflexivity. }
  rewrite nth_error_app2 in N by lia.
  destruct (length x - length a) as [|k] eqn:K; [lia|].
  simpl in N. eapply nth_error_In; eauto.
Qed.

Lemma split_overlap (c e : char) (a r a' b' : str) :
  a ++ c :: r = a' ++ e :: b' -> length a < length a' ->
  exists m, a' = a ++ c :: m /\ r = m ++ e :: b'.
Proof.
  revert a'. induction a as [|x a IH]; intros [|x' a'] E L;
    simpl in *; try lia.
  - injection E as -> ->. eauto.
  - injection E as -> E. destruct (IH a' E) as [m [-> ->]]; [lia|]. eauto.
Qed.

Lemma find_from_none (c : char) (s : str) (i : Z) :
  ~ In c s -> find_from i s [c] = (-1)%Z.
Proof.
  revert i. induction s as [|x s IH]; intros i H; simpl; [reflexivity|].
  simpl in H. destruct (char_eqb c x) eqn:E.
  - apply char_eqb_eq in E. subst. tauto.
  - simpl. apply IH. intuition.
Qed.

Lemma find_from_first (c : char) (a r : str) (i : Z) :
  ~ In c a -> find_from i (a ++ c :: r) [c] = (i + Z.of_nat (length a))%Z.
Proof.
  revert i. induction a as [|x a IH]; intros i H; simpl.
  - rewrite char_eqb_refl. simpl. lia.
  - simpl in H. destruct (char_eqb c x) eqn:E.
    + apply char_eqb_eq in E. subst. tauto.
    + simpl. rewrite IH by intuition. lia.
Qed.

Lemma rfind_from_none (c : char) (s : str) (i : Z) :
  ~ In c s -> rfind_from i s [c] = (-1)%Z.
Proof.
  revert i. induction s as [|x s IH]; intros i H; simpl; [reflexivity|].
  simpl in H. rewrite IH by intuition. simpl.
  destruct (char_eqb c x) eqn:E; [|reflexivity].
  apply char_eqb_eq in E. subst. tauto.
Qed.

Lemma rfind_from_last (c : char) (a b : str) (i : Z) :
  (0 <= i)%Z -> ~ In c b ->
  rfind_from i (a ++ c :: b) [c] = (i + Z.of_nat (length a))%Z.
Proof.
  revert i. induction a as [|x a IH]; intros i Hi H.
  - simpl. rewrite rfind_from_none by assumption. simpl.
    rewrite char_eqb_refl. simpl. lia.
  - cbn [app rfind_from length]. rewrite IH by (assumption || lia).
    destruct (Z.eqb_spec (i + 1 + Z.of_nat (length a)) (-1)); lia.
Qed.

Lemma skipn_length_app (a r : str) : skipn (length a) (a ++ r) = r.
Proof. induction a; simpl; auto. Qed.

Lemma firstn_length_app (x b : str) : firstn (length x) (x ++ b) = x.
Proof. induction x; simpl; [reflexivity | f_equal; assumption]. Qed.

Lemma slice_app (a x b : str) :
  slice (a ++ x ++ b) (Z.of_nat (length a))
        (Z.of_nat (length a) + Z.of_nat (length x)) = x.
Proof.
  unfold slice, slice_bound. rewrite !length_app.
  destruct (Z.ltb_spec (Z.of_nat (length a)) 0); [lia|].
  destruct (Z.ltb_spec (Z.of_nat (length a) + Z.of_nat (length x)) 0); [lia|].
  rewrite !Z.min_l by lia.
  replace (Z.to_nat (Z.of_nat (length a) + Z.of_nat (length x)
                     - Z.of_nat (length a))) with (length x) by lia.
  rewrite Nat2Z.id, skipn_length_app. apply firstn_length_app.
Qed.

End Search.

(** ** The extractor *)

Section Extractor.

Lemma lbrace_not_space : isspace lbrace = false.
Proof. reflexivity. Qed.

Lemma rbrace_not_space : isspace rbrace = false.
Proof. reflexivity. Qed.

Lemma fast_pair (s : str) :
  startswith s [lbrace] = true -> endswith s [rbrace] = true ->
  exists m, s = lbrace :: m ++ [rbrace].
Proof.
  rewrite startswith_single, endswith_single.
  intros [r ->] [[|x r'] E]; simpl in E.
  - injection E as E _. discriminate.
  - injection E as <- ->. eauto.
Qed.

Lemma ends_last (c : char) (p b r : str) :
  p ++ c :: b = r ++ [c] -> ~ In c b -> b = [] /\ p = r.
Proof.
  intros E Hb. destruct (rev b) as [|z t] eqn:Eb.
  - apply (f_equal (@rev _)) in Eb. rewrite rev_involutive in Eb.
    subst b. split; [reflexivity|]. simpl in E.
    now apply app_inj_tail in E.
  - exfalso. apply Hb. apply (f_equal (@rev _)) in E.
    rewrite !rev_app_distr in E. simpl in E. rewrite Eb in E.
    simpl in E. injection E as -> _.
    rewrite (in_rev b), Eb. simpl. auto.
Qed.

(** A first [{] with a last [}] after it, in any text with a [{] before
    a [}]. *)
Lemma pair_first_last (s : str) :
  brace_pair s ->
  exists a m b, s = a ++ lbrace :: m ++ rbrace :: b
                /\ ~ In lbrace a /\ ~ In rbrace b.
Proof.
  intros [x [m0 [y E]]].
  assert (Hl : In lbrace s) by (rewrite E, in_app_iff; simpl; auto).
  assert (Hr : In rbrace s).
  { rewrite E, in_app_iff. right. right. rewrite in_app_iff. simpl. auto. }
  destruct (in_split_first _ _ Hl) as [a [r [Ea Ha]]].
  destruct (in_split_last _ _ Hr) as [a' [b [Eb Hb]]].
  assert (L1 : length a <= length x).
  { apply (first_le lbrace a r x (m0 ++ rbrace :: y) Ha). congruence. }
  assert (L2 : length (x ++ lbrace :: m0) <= length a').
  { apply (last_ge rbrace a' b (x ++ lbrace :: m0) y Hb).
    rewrite <- Eb, E, <- app_assoc. reflexivity. }
  rewrite length_app in L2. simpl in L2.
  destruct (split_overlap lbrace rbrace a r a' b) as [m [_ ->]];
    [congruence | lia |].
  exists a, m, b. auto.
Qed.

(** What the search of lines 115-119 returns on such a text. *)
Lemma search_pair (a m b : str) :
  ~ In lbrace a -> ~ In rbrace b ->
  let s := a ++ lbrace :: m ++ rbrace :: b in
  find s [lbrace] = Z.of_nat (length a)
  /\ rfind s [rbrace] = Z.of_nat (length a + S (length m))
  /\ slice s (find s [lbrace]) (rfind s [rbrace] + 1) = lbrace :: m ++ [rbrace].
Proof.
  intros Ha Hb s.
  assert (F : find s [lbrace] = Z.of_nat (length a)).
  { unfold find, s. now rewrite find_from_first. }
  assert (R : rfind s [rbrace] = Z.of_nat (length a + S (length m))).
  { unfold rfind, s. change (a ++ lbrace :: m ++ rbrace :: b)
      with (a ++ (lbrace :: m) ++ rbrace :: b).
    rewrite app_assoc, rfind_from_last, length_app by (assumption || lia).
    simpl. lia. }
  split; [exact F|]. split; [exact R|].
  rewrite F, R.
  assert (E : s = a ++ (lbrace :: m ++ [rbrace]) ++ b).
  { unfold s. simpl. now rewrite <- app_assoc. }
  rewrite E.
  replace (Z.of_nat (length a + S (length m)) + 1)%Z
    with (Z.of_nat (length a) + Z.of_nat (length (lbrace :: m ++ [rbrace])))%Z.
  - apply slice_app.
  - simpl. rewrite length_app. simpl. lia.
Qed.

(** The extractor on a text whose cleaned form has a first [{] before a
    last [}], on either path. *)
Lemma extract_pair (text a m b : str) :
  fenced_removed text = a ++ lbrace :: m ++ rbrace :: b ->
  ~ In lbrace a -> ~ In rbrace b ->
  _extract_json_from_text (Some text) = Some (lbrace :: m ++ [rbrace]).
Proof.
  intros E Ha Hb. unfold _extract_json_from_text.
  destruct text as [|c text]; [destruct a; discriminate|].
  cbn [truthy negb].
  destruct (startswith (fenced_removed (c :: text)) [lbrace]
            && endswith (fenced_removed (c :: text)) [rbrace]) eqn:Fast.
  - apply andb_prop in Fast. destruct Fast as [S1 S2].
    destruct (fast_pair _ S1 S2) as [m' Em]. rewrite Em. rewrite Em in E.
    destruct a as [|x a]; simpl in E.
    + injection E as E. symmetry in E.
      destruct (ends_last _ _ _ _ E Hb) as [_ ->]. reflexivity.
    + injection E as <- _. simpl in Ha. tauto.
  - destruct (search_pair a m b Ha Hb) as [F [R Sl]].
    rewrite <- E in F, R, Sl. rewrite Sl, F, R.
    replace (negb (Z.of_nat (length a) =? -1)%Z) with true
      by (symmetry; apply negb_true_iff, Z.eqb_neq; lia).
    replace (negb (Z.of_nat (length a + S (length m)) =? -1)%Z) with true
      by (symmetry; apply negb_true_iff, Z.eqb_neq; lia).
    replace (Z.of_nat (length a + S (length m)) >? Z.of_nat (length a))%Z
      with true by (symmetry; apply Z.gtb_lt; lia).
    cbn [andb]. f_equal.
    apply strip_fix; [apply lbrace_not_space | apply rbrace_not_space].
Qed.

(** Whatever the extractor returns comes from such a pair. *)
Lemma extract_some (text : option str) (j : str) :
  _extract_json_from_text text = Some j ->
  exists t, text = Some t /\ truthy t = true
            /\ brace_pair (fenced_removed t).
Proof.
  destruct text as [t|]; [|discriminate]. unfold _extract_json_from_text.
  destruct (truthy t) eqn:T; [|discriminate]. cbn [negb].
  intros H. exists t. split; [reflexivity|]. split; [exact T|].
  set (s := fenced_removed t) in *.
  destruct (startswith s [lbrace] && endswith s [rbrace]) eqn:Fast.
  - apply andb_prop in Fast. destruct Fast as [S1 S2].
    destruct (fast_pair _ S1 S2) as [m Em].
    exists [], m, []. exact Em.
  - destruct (in_dec N.eq_dec lbrace s) as [Il|Il].
    2:{ unfold find in H. rewrite find_from_none in H by assumption.
        discriminate. }
    destruct (in_dec N.eq_dec rbrace s) as [Ir|Ir].
    2:{ unfold rfind in H. rewrite rfind_from_none in H by assumption.
        rewrite andb_false_r in H. discriminate. }
    destruct (in_split_first _ _ Il) as [a [r [Ea Ha]]].
    destruct (in_split_last _ _ Ir) as [a' [b [Eb Hb]]].
    assert (F : find s [lbrace] = Z.of_nat (length a)).
    { unfold find. rewrite Ea, find_from_first by assumption. lia. }
    assert (R : rfind s [rbrace] = Z.of_nat (length a')).
    { unfold rfind. rewrite Eb, rfind_from_last by (assumption || lia). lia. }
    rewrite F, R in H.
    destruct (Z.gtb_spec (Z.of_nat (length a')) (Z.of_nat (length a)))
      as [G|G]; [|rewrite andb_false_r in H; discriminate].
    destruct (split_overlap lbrace rbrace a r a' b) as [m [_ Em]];
      [congruence | lia |].
    exists a, m, b. now rewrite Ea, Em.
Qed.

(** The extractor only returns texts between braces. *)
Lemma extract_braced (text : option str) (j : str) :
  _extract_json_from_text text = Some j ->
  exists m, j = lbrace :: m ++ [rbrace].
Proof.
  intros H. destruct (extract_some _ _ H) as [t [-> [_ P]]].
  destruct (pair_first_last _ P) as [a [m [b [E [Ha Hb]]]]].
  rewrite (extract_pair t a m b E Ha Hb) in H. injection H as <-. eauto.
Qed.

End Extractor.

(** ** The decoder *)

Module JsonFacts.
Import Json.

Ltac break_step H :=
  match type of H with
  | Ok _ = Ok _ => inversion H; clear H; try subst
  | DecodeError = Ok _ => discriminate H
  | DigitLimit = Ok _ => discriminate H
  | DepthLimit = Ok _ => discriminate H
  | OutOfFuel = Ok _ => discriminate H
  | Ok _ = OutOfFuel => discriminate H
  | DecodeError = OutOfFuel => discriminate H
  | DigitLimit = OutOfFuel => discriminate H
  | DepthLimit = OutOfFuel => discriminate H
  | None = Some _ => discriminate H
  | Some _ = Some _ => inversion H; clear H; try subst
  | context [match ?x with _ => _ end] =>
      let E := fresh "E" in
      destruct x eqn:E; cbn [bind cons_fst fst snd] in H
  | context [bind ?x _] =>
      let E := fresh "E" in
      destruct x as [[? ?]| | | |] eqn:E; cbn [bind cons_fst fst snd] in H
  end.

Lemma skip_ws_length (s : str) : length (skip_ws s) <= length s.
Proof.
  induction s as [|c s IH]; simpl; [lia|].
  destruct (is_ws c); simpl; lia.
Qed.

Lemma skip_ws_fix (c : char) (r : str) :
  is_ws c = false -> skip_ws (c :: r) = c :: r.
Proof. simpl. now intros ->. Qed.

Lemma skip_ws_cons (s r : str) (c : char) :
  skip_ws s = c :: r -> length r < length s.
Proof.
  intros H. assert (L := skip_ws_length s). rewrite H in L. simpl in L. lia.
Qed.

Lemma scanstring_bounded (n : nat) :
  forall s x r,
    length s <= n -> scanstring s = Ok (x, r) -> length r < length s.
Proof.
  induction n as [|n IH]; intros [|c s] x r Hle H;
    simpl in Hle; try discriminate; try lia.
  cbn [scanstring] in H.
  repeat break_step H;
    repeat match goal with
           | E : scanstring ?t = Ok (_, _) |- _ =>
               apply IH in E; [|cbn [length] in *; lia]
           end;
    cbn [length] in *; lia.
Qed.

Lemma scanstring_shorter (s x r : str) :
  scanstring s = Ok (x, r) -> length r < length s.
Proof. apply (scanstring_bounded (length s)). lia. Qed.

Lemma span_digits_length (s : str) :
  length (snd (span_digits s)) <= length s.
Proof.
  induction s as [|c s IH]; simpl; [lia|].
  destruct (is_digit c); simpl; lia.
Qed.

Lemma span_digits_rest (s ds rest : str) :
  span_digits s = (ds, rest) -> length rest <= length s.
Proof.
  intros H. assert (L := span_digits_length s). now rewrite H in L.
Qed.

Lemma number_integer_shorter (s i r : str) (neg : bool) :
  number_integer s = Some (neg, i, r) -> length r < length s.
Proof.
  unfold number_integer. intros H.
  destruct s as [|c0 s0]; [discriminate|].
  destruct (is_char c0 "-");
    repeat break_step H;
    repeat match goal with
           | E : span_digits _ = (_, _) |- _ => apply span_digits_rest in E
           end;
    simpl length in *; lia.
Qed.

Lemma number_frac_length (s f r : str) :
  number_frac s = (f, r) -> length r <= length s.
Proof.
  unfold number_frac. intros H.
  repeat match type of H with
         | context [match ?x with _ => _ end] =>
             let E := fresh "E" in destruct x eqn:E
         end;
    inversion H; clear H; try subst;
    repeat match goal with
           | E : span_digits _ = (_, _) |- _ => apply span_digits_rest in E
           end;
    simpl in *; lia.
Qed.

Lemma number_exp_length (s e r : str) :
  number_exp s = (e, r) -> length r <= length s.
Proof.
  unfold number_exp. intros H.
  repeat match goal with
         | H : context [match ?x with _ => _ end] |- _ => destruct x eqn:?
         end;
    repeat match goal with
           | E : (_, _) = (_, _) |- _ => inversion E; clear E; try subst
           | E : span_digits _ = (_, _) |- _ => apply span_digits_rest in E
           end;
    simpl in *; lia.
Qed.

Lemma match_number_shorter (m : nat) (s r : str) (v : value) :
  match_number m s = Some (Ok (v, r)) -> length r < length s.
Proof.
  unfold match_number. intros H.
  destruct (number_integer s) as [[[neg i] r0]|] eqn:E0; [|discriminate].
  destruct (number_frac r0) as [f r1] eqn:E1.
  destruct (number_exp r1) as [e r2] eqn:E2.
  apply number_integer_shorter in E0. apply number_frac_length in E1.
  apply number_exp_length in E2.
  destruct (truthy f || truthy e).
  - injection H as _ <-. lia.
  - destruct (parse_int m neg i); try discriminate H.
    injection H as _ <-. lia.
Qed.

Lemma match_number_fuel (m : nat) (s : str) :
  match_number m s <> Some OutOfFuel.
Proof.
  unfold match_number, parse_int.
  destruct (number_integer s) as [[[neg i] r0]|]; [|discriminate].
  destruct (number_frac r0) as [f r1]. destruct (number_exp r1) as [e r2].
  destruct (truthy f || truthy e); [discriminate|].
  now destruct (_ && _).
Qed.

Lemma skipn_shorter (k : nat) (c : char) (r : str) :
  length (skipn (S k) (c :: r)) < length (c :: r).
Proof. rewrite length_skipn. simpl. lia. Qed.

Lemma scanstring_fuel_bounded (n : nat) :
  forall s, length s <= n -> scanstring s <> OutOfFuel.
Proof.
  induction n as [|n IH]; intros [|c s] Hle H;
    simpl in Hle; try discriminate; try lia.
  cbn [scanstring] in H.
  repeat break_step H;
    match goal with
    | E : scanstring ?t = OutOfFuel |- _ =>
        apply IH in E; [exact E | cbn [length] in *; lia]
    end.
Qed.

Lemma scanstring_fuel (s : str) : scanstring s <> OutOfFuel.
Proof. apply (scanstring_fuel_bounded (length s)). lia. Qed.

Ltac note_skip_ws :=
  repeat match goal with
         | H : context [skip_ws ?t] |- _ =>
             lazymatch goal with
             | _ : length (skip_ws t) <= length t |- _ => fail
             | _ => pose proof (skip_ws_length t)
             end
         end.

Ltac lengths :=
  repeat match goal with
         | p : (_ * _)%type |- _ => destruct p
         end;
  cbn [fst snd] in *;
  note_skip_ws;
  repeat match goal with
         | E : scanstring _ = Ok (_, _) |- _ => apply scanstring_shorter in E
         | E : skip_ws _ = _ :: _ |- _ => apply skip_ws_cons in E
         | E : match_number _ _ = Some (Ok (_, _)) |- _ =>
             apply match_number_shorter in E
         end;
  rewrite ?length_skipn; simpl length in *.

(** Every successful scanning step reads at least one character. *)
Lemma scan_progress (m n : nat) :
  (forall room s v r,
      scan_once m n room s = Ok (v, r) -> length r < length s)
  /\ (forall room pairs s v r,
         object_items m n room pairs s = Ok (v, r) -> length r < length s)
  /\ (forall room values s v r,
         array_items m n room values s = Ok (v, r) -> length r < length s).
Proof.
  induction n as [|n [IHs [IHo IHa]]];
    [repeat split; intros; discriminate|].
  repeat split.
  - intros room s v r H. cbn [scan_once] in H.
    repeat (first [discriminate H | break_step H]);
      try subst;
      try (apply IHo in H); try (apply IHa in H); lengths;
      repeat match goal with
             | |- context [match ?l with [] => _ | _ :: _ => _ end] =>
                 destruct l
             end;
      simpl length; lia.
  - intros room pairs s v r H. cbn [object_items] in H.
    repeat (first [discriminate H | break_step H]);
      try (apply IHo in H);
      repeat match goal with
             | E : scan_once _ n _ _ = Ok _ |- _ => apply IHs in E
             end;
      lengths; lia.
  - intros room values s v r H. cbn [array_items] in H.
    repeat (first [discriminate H | break_step H]);
      try (apply IHa in H);
      repeat match goal with
             | E : scan_once _ n _ _ = Ok _ |- _ => apply IHs in E
             end;
      lengths; lia.
Qed.

(** The bound on nested calls that [decode] starts with is never reached. *)
Lemma scan_fuel (m n : nat) :
  (forall room s,
      2 * length s + 1 <= n -> scan_once m n room s <> OutOfFuel)
  /\ (forall room pairs s,
         2 * length s + 1 <= n ->
         object_items m n room pairs s <> OutOfFuel)
  /\ (forall room values s,
         2 * length s + 2 <= n ->
         array_items m n room values s <> OutOfFuel).
Proof.
  induction n as [|n [IHs [IHo IHa]]]; [repeat split; intros; lia|].
  assert (P := proj1 (scan_progress m n)).
  repeat split; intros;
    match goal with
    | |- ?f <> OutOfFuel =>
        let H := fresh "H" in
        intros H; cbn [scan_once object_items array_items] in H;
        repeat (first [discriminate H | break_step H])
    end;
    try subst;
    try match goal with
        | E : scanstring _ = OutOfFuel |- _ =>
            apply scanstring_fuel in E; exact E
        | E : match_number _ _ = Some OutOfFuel |- _ =>
            apply match_number_fuel in E; exact E
        end;
    match goal with
    | E : scan_once _ n _ _ = OutOfFuel |- _ => apply IHs in E; [exact E|]
    | E : object_items _ n _ _ _ = OutOfFuel |- _ =>
        apply IHo in E; [exact E|]
    | E : array_items _ n _ _ _ = OutOfFuel |- _ =>
        apply IHa in E; [exact E|]
    end;
    repeat match goal with
           | E : scan_once _ n _ _ = Ok _ |- _ => apply P in E
           end;
    lengths; lia.
Qed.

Theorem decode_fuel (lim : limits) (s : str) : decode lim s <> OutOfFuel.
Proof.
  unfold decode. intros H.
  repeat (first [discriminate H | break_step H]).
  apply (proj1 (scan_fuel _ _)) in E0; [exact E0 | lia].
Qed.

(** [loads] ends with [RecursionError] only when the nesting is too
    deep. *)
Corollary loads_recursion (lim : limits) (s : str) :
  loads lim s = RecursionError <-> decode lim s = DepthLimit.
Proof.
  unfold loads. assert (F := decode_fuel lim s).
  destruct (decode lim s); split; congruence.
Qed.

Lemma object_items_object (m n : nat) :
  forall room pairs s v r,
    object_items m n room pairs s = Ok (v, r) -> exists d, v = Object d.
Proof.
  induction n as [|n IH]; intros room pairs s v r H; [discriminate|].
  cbn [object_items] in H.
  repeat (first [discriminate H | break_step H]); eauto.
Qed.

(** A text that starts with [{] decodes to a [dict] or not at all. *)
Lemma decode_object (lim : limits) (r : str) (v : value) :
  decode lim (lbrace :: r) = Ok v -> exists d, v = Object d.
Proof.
  unfold decode. intros H.
  change (startswith (lbrace :: r) [65279%N]) with false in H.
  rewrite skip_ws_fix in H by reflexivity.
  cbn [scan_once Nat.add Nat.mul length] in H.
  change (char_eqb lbrace dquote) with false in H.
  change (is_char lbrace "{") with true in H.
  cbv iota in H.
  destruct (recursion_room lim) as [|room]; [discriminate H|].
  destruct (skip_ws r) as [|c1 r1]; [discriminate H|].
  destruct (is_char c1 "}").
  - cbn [bind fst snd] in H. destruct (skip_ws r1); inversion H; eauto.
  - destruct (char_eqb c1 dquote); [|discriminate H].
    match type of H with
    | context [object_items ?m ?n ?k ?p ?t] =>
        destruct (object_items m n k p t) as [[v' rest]| | | |] eqn:E;
          try discriminate H
    end.
    apply object_items_object in E. destruct E as [d ->].
    cbn [bind fst snd] in H. destruct (skip_ws rest); inversion H; eauto.
Qed.

Lemma loads_object (lim : limits) (r : str) (v : value) :
  loads lim (lbrace :: r) = Loaded v -> exists d, v = Object d.
Proof.
  unfold loads. destruct (decode lim (lbrace :: r)) as [v'| | | |] eqn:E;
    try discriminate.
  intros H. injection H as ->. eapply decode_object; eauto.
Qed.

End JsonFacts.

(** ** Normalization *)

Section Normalizer.

Lemma normalize_field_object (d : Json.dict) (key : str) :
  normalize_field (Json.Object d) key = Return (PStr (field_value d key)).
Proof.
  unfold normalize_field, field_value, data_get. cbn [py_bind].
  destruct (Json.dict_get d key) as [[]|]; reflexivity.
Qed.

Lemma normalize_object (d : Json.dict) :
  normalize (Json.Object d) =
  Return [(lit "reflection", PStr (field_value d (lit "reflection")));
          (lit "dream_summary", PStr (field_value d (lit "dream_summary")));
          (lit "mindset", PStr (field_value d (lit "mindset")));
          (lit "strategy", PStr (field_value d (lit "strategy")))].
Proof. unfold normalize. now rewrite !normalize_field_object. Qed.

Lemma normalize_returns (data : Json.value) (r : pydict) :
  normalize data = Return r ->
  keys r = SUCCESS_KEYS /\ item r (lit "error") = None.
Proof.
  unfold normalize. intros H.
  repeat match type of H with
         | context [py_bind ?x _] =>
             destruct x; cbn [py_bind] in H; [|discriminate H]
         end.
  injection H as <-. split; reflexivity.
Qed.

End Normalizer.

(** * The claims *)

(** C1. Normalization of any mapping succeeds and returns a record with
    exactly the keys reflection, dream_summary, mindset, strategy; each
    value is the trimmed string of the mapping when the key is present with
    a string value, and the empty string when the key is absent or its
    value is not a string. *)
Theorem normalize_mapping_total (d : Json.dict) :
  exists r,
    normalize (Json.Object d) = Return r
    /\ keys r = SUCCESS_KEYS
    /\ forall k, In k SUCCESS_KEYS ->
         (forall s, Json.dict_get d k = Some (Json.Str s) ->
                    item r k = Some (PStr (strip s)))
         /\ (Json.dict_get d k = None -> item r k = Some (PStr []))
         /\ (forall v, Json.dict_get d k = Some v ->
                       (forall s, v <> Json.Str s) ->
                       item r k = Some (PStr [])).
Proof.
  eexists. split; [apply normalize_object|]. split; [reflexivity|].
  intros k Hk.
  assert (I : item
     [(lit "reflection", PStr (field_value d (lit "reflection")));
      (lit "dream_summary", PStr (field_value d (lit "dream_summary")));
      (lit "mindset", PStr (field_value d (lit "mindset")));
      (lit "strategy", PStr (field_value d (lit "strategy")))] k
     = Some (PStr (field_value d k))).
  { simpl in Hk. destruct Hk as [<-|[<-|[<-|[<-|[]]]]]; reflexivity. }
  rewrite I. unfold field_value. repeat split.
  - intros s ->. reflexivity.
  - intros ->. reflexivity.
  - intros v -> Hv. destruct v; try reflexivity. now destruct (Hv s).
Qed.

(** The example of the specification: a padded string and a number. *)
Example normalize_example :
  normalize (Json.Object [(lit "reflection", Json.Str (lit "  hi  "));
                          (lit "strategy", Json.Int 5)])
  = Return [(lit "reflection", PStr (lit "hi"));
            (lit "dream_summary", PStr []);
            (lit "mindset", PStr []);
            (lit "strategy", PStr [])].
Proof. reflexivity. Qed.

(** C2. When the cleaned text does not both start with [{] and end with
    [}], and its first [{] comes before its last [}], the extractor returns
    the text from that first [{] to that last [}] inclusive, trimmed (the
    trim changes nothing there). *)
Theorem extract_first_to_last (text a m b : str) :
  startswith (fenced_removed text) [lbrace]
  && endswith (fenced_removed text) [rbrace] = false ->
  fenced_removed text = a ++ lbrace :: m ++ rbrace :: b ->
  ~ In lbrace a -> ~ In rbrace b ->
  _extract_json_from_text (Some text)
  = Some (strip (lbrace :: m ++ [rbrace])).
Proof.
  intros _ E Ha Hb. rewrite (extract_pair text a m b E Ha Hb). f_equal.
  symmetry. apply strip_fix; reflexivity.
Qed.

Lemma extract_first_to_last_witness :
  _extract_json_from_text
    (Some (lit "here is the result: {" ++ quoted "a" ++ lit ":1} thanks"))
  = Some (lit "{" ++ quoted "a" ++ lit ":1}").
Proof.
  apply (extract_first_to_last
           (lit "here is the result: {" ++ quoted "a" ++ lit ":1} thanks")
           (lit "here is the result: ") (quoted "a" ++ lit ":1")
           (lit " thanks")).
  - reflexivity.
  - reflexivity.
  - apply contains_single. reflexivity.
  - apply contains_single. reflexivity.
Defined.

(** ** Orchestration *)

Section Orchestrator.

Variables (cfg : config) (llm : provider).
Variables (journal intention dream priorities : option str).

Lemma build_llm_key (kwargs : llm_kwargs) :
  _build_llm cfg = Return kwargs -> truthy_opt cfg.(OPENAI_API_KEY) = true.
Proof.
  unfold _build_llm. destruct cfg.(OPENAI_API_KEY) as [key|]; [|discriminate].
  simpl. destruct (truthy key); [reflexivity | discriminate].
Qed.

Lemma build_llm_no_key :
  truthy_opt cfg.(OPENAI_API_KEY) = false ->
  _build_llm cfg = Raise NO_OPENAI_KEY.
Proof.
  unfold _build_llm. destruct cfg.(OPENAI_API_KEY) as [key|]; [|reflexivity].
  simpl. now intros ->.
Qed.

Lemma generate_reflection_endings :
  fst (generate_reflection cfg llm journal intention dream priorities)
  = Return (error_dict NO_KEY_ERROR PNone)
  /\ truthy_opt cfg.(OPENAI_API_KEY) = false
  /\ truthy_opt cfg.(TOGETHER_API_KEY) = false
  \/ ending (fst (generate_reflection cfg llm journal intention dream
                    priorities)).
Proof.
  unfold generate_reflection.
  destruct (truthy_opt cfg.(OPENAI_API_KEY)) eqn:K1;
    [|destruct (truthy_opt cfg.(TOGETHER_API_KEY)) eqn:K2];
    cbn [orb negb]; [| |left; auto]; right.
  all: destruct (call_llm _ _ _ _ _ _) as [[raw_output|exc] calls];
    cbn [fst]; [|constructor].
  all: destruct (_extract_json_from_text _) as [json_text|] eqn:X;
    [|constructor].
  all: destruct (extract_braced _ _ X) as [m ->]; cbn [truthy negb].
  all: destruct (Json.loads _ _) as [data| | |] eqn:L; cbn [fst];
    try constructor.
  all: destruct (JsonFacts.loads_object _ _ _ L) as [d ->]; constructor.
Qed.

End Orchestrator.

(** Whenever the call returns, it returns one of two shapes: a record with
    the four result keys and neither error key, or a record with the keys
    error and raw and none of the result keys; and it returns unless
    [json.loads] raises one of the two exceptions that are not caught. *)
Lemma returned_record_shape (cfg : config) (llm : provider)
  (journal intention dream priorities : option str) :
  (forall r,
     fst (generate_reflection cfg llm journal intention dream priorities)
     = Return r ->
     (keys r = SUCCESS_KEYS /\ (forall k, In k ERROR_KEYS -> item r k = None)
      \/ keys r = ERROR_KEYS
         /\ (forall k, In k SUCCESS_KEYS -> item r k = None))
     /\ ~ (keys r = SUCCESS_KEYS /\ keys r = ERROR_KEYS))
  /\ ((exists r,
         fst (generate_reflection cfg llm journal intention dream priorities)
         = Return r)
      \/ fst (generate_reflection cfg llm journal intention dream priorities)
         = Raise VALUE_ERROR
      \/ fst (generate_reflection cfg llm journal intention dream priorities)
         = Raise RECURSION_ERROR).
Proof.
  assert (Err : forall e raw,
    keys (error_dict e raw) = ERROR_KEYS
    /\ forall k, In k SUCCESS_KEYS -> item (error_dict e raw) k = None).
  { intros e raw. split; [reflexivity|]. intros k Hk. simpl in Hk.
    destruct Hk as [<-|[<-|[<-|[<-|[]]]]]; reflexivity. }
  assert (Excl : forall r : pydict,
    ~ (keys r = SUCCESS_KEYS /\ keys r = ERROR_KEYS)).
  { intros r [H1 H2]. rewrite H1 in H2. discriminate H2. }
  destruct (generate_reflection_endings cfg llm journal intention dream
              priorities) as [[H _]|H].
  - rewrite H. split; [|left; eauto].
    intros r E. injection E as <-. split; [right; apply Err | apply Excl].
  - inversion H as [exc E|raw E|raw E|E|E|d E].
    1-3: split; [|left; eauto]; intros r R; injection R as <-;
      (split; [right; apply Err | apply Excl]).
    1-2: split; [discriminate | auto].
    rewrite normalize_object. split; [|left; eauto].
    intros r R. injection R as <-. split; [left|apply Excl].
    split; [reflexivity|].
    intros k Hk. simpl in Hk. destruct Hk as [<-|[<-|[]]]; reflexivity.
Qed.

(** C3 fails on the code.  With the default digit limit, a reply whose
    object holds an integer literal of 4301 digits makes [json.loads]
    raise [ValueError]; line 172 catches only [JSONDecodeError], so the
    call raises after its one request instead of returning a record. *)
Theorem generate_reflection_raises_value_error :
  generate_reflection cfg_openai (replies long_integer_reply)
    None None None None
  = (Raise VALUE_ERROR, [(kwargs_openai, rendered_prompt [] [] [] [])]).
Proof. vm_compute. reflexivity. Qed.

(** C4. With no credential configured the call returns the error record of
    the missing key, with an absent raw field, and the provider is not
    invoked. *)
Theorem no_credentials_error (cfg : config) (llm : provider)
  (journal intention dream priorities : option str) :
  truthy_opt cfg.(OPENAI_API_KEY) = false ->
  truthy_opt cfg.(TOGETHER_API_KEY) = false ->
  generate_reflection cfg llm journal intention dream priorities
  = (Return [(lit "error", PStr NO_KEY_ERROR); (lit "raw", PNone)], []).
Proof.
  intros K1 K2. unfold generate_reflection. now rewrite K1, K2.
Qed.

Lemma no_credentials_error_witness :
  generate_reflection cfg_none (replies good_reply)
    (Some (lit "j")) (Some (lit "i")) (Some (lit "d")) (Some (lit "p"))
  = (Return [(lit "error", PStr NO_KEY_ERROR); (lit "raw", PNone)], []).
Proof.
  apply (no_credentials_error cfg_none (replies good_reply)); reflexivity.
Defined.

(** ** Which characters fence stripping removes *)

Section FenceTokens.

Lemma lstrip_rest (w rest : str) :
  forallb isspace w = true -> unspaced rest -> lstrip (w ++ rest) = rest.
Proof.
  intros W U. induction w as [|x w IH]; simpl in *.
  - now apply lstrip_fix.
  - apply andb_prop in W. destruct W as [-> W]. auto.
Qed.

Lemma after_fence_token (tag w rest : str) :
  tag = lit "json"
  \/ tag = [] /\ startswith (w ++ rest) (lit "json") = false ->
  forallb isspace w = true -> unspaced rest ->
  Re.after_fence (tag ++ w ++ rest) = rest.
Proof.
  intros T W U. unfold Re.after_fence. destruct T as [-> | [-> S]].
  - change (startswith (lit "json" ++ w ++ rest) (lit "json")) with true.
    cbv iota. change (skipn 4 (lit "json" ++ w ++ rest)) with (w ++ rest).
    now apply lstrip_rest.
  - cbn [app]. rewrite S. now apply lstrip_rest.
Qed.

(** What follows a fence token splits into the tag, the whitespace and
    the rest. *)
Lemma after_fence_split (b : str) :
  exists tag w rest,
    b = tag ++ w ++ rest
    /\ (tag = lit "json"
        \/ tag = [] /\ startswith (w ++ rest) (lit "json") = false)
    /\ forallb isspace w = true
    /\ unspaced rest
    /\ length rest <= length b.
Proof.
  assert (L : forall q, exists w, q = w ++ lstrip q
                /\ forallb isspace w = true /\ unspaced (lstrip q)).
  { intros q. destruct (lstrip_split q) as [w [E W]]. exists w.
    repeat split; auto. unfold unspaced.
    destruct (lstrip q) eqn:Q; [exact I|]. eapply lstrip_head; eauto. }
  destruct (startswith b (lit "json")) eqn:J.
  - apply startswith_iff in J. destruct J as [q ->].
    destruct (L q) as [w [E [W U]]].
    exists (lit "json"), w, (lstrip q). rewrite <- E.
    repeat split; auto.
    rewrite length_app. assert (X := lstrip_length q). lia.
  - destruct (L b) as [w [E [W U]]].
    exists [], w, (lstrip b). cbn [app]. rewrite <- E.
    repeat split; auto using lstrip_length.
Qed.

(** The first fence token of a text that has one. *)
Lemma first_fence (s : str) :
  contains s FENCE = true ->
  exists a b,
    s = a ++ FENCE ++ b
    /\ contains (a ++ [backtick; backtick]) FENCE = false.
Proof.
  induction s as [|c s IH]; intros H; [discriminate H|].
  destruct (startswith (c :: s) FENCE) eqn:S.
  - apply startswith_iff in S. destruct S as [b E].
    exists [], b. split; [exact E | reflexivity].
  - cbn [contains] in H. rewrite S in H. cbn [orb] in H.
    destruct (IH H) as [a [b [-> C]]].
    exists (c :: a), b. split; [reflexivity|].
    cbn [app contains]. rewrite C, orb_false_r.
    destruct (startswith (c :: a ++ [backtick; backtick]) FENCE) eqn:X;
      [|reflexivity].
    apply (startswith_app _ _ (backtick :: b)) in X.
    change (c :: a ++ FENCE ++ b)
      with ((c :: a) ++ [backtick; backtick] ++ backtick :: b) in S.
    rewrite app_assoc in S. cbn [app] in S, X. congruence.
Qed.

Lemma sub_open_none (s : str) :
  contains s FENCE = false -> Re.sub Re.fence_open s = s.
Proof.
  intros H. apply sub_no_match. intros a b ->.
  apply fence_open_none. now apply contains_tail, contains_head in H.
Qed.

(** The first substitution removes the fence tokens, and only them. *)
Lemma without_fences_sub (s out : str) :
  without_fences s out -> out = Re.sub Re.fence_open s.
Proof.
  induction 1 as [s C|a tag w rest out C T W U R IH].
  - symmetry. now apply sub_open_none.
  - rewrite sub_open_first by exact C.
    now rewrite after_fence_token, <- IH.
Qed.

Lemma sub_without_fences (s : str) :
  without_fences s (Re.sub Re.fence_open s).
Proof.
  remember (length s) as n eqn:Hn. assert (Hle : length s <= n) by lia.
  clear Hn. revert s Hle.
  induction n as [|n IH]; intros s Hle.
  - destruct s; [|simpl in Hle; lia]. now constructor.
  - destruct (contains s FENCE) eqn:C.
    + destruct (first_fence s C) as [a [b [-> F]]].
      destruct (after_fence_split b) as [tag [w [rest [-> [T [W [U L]]]]]]].
      rewrite sub_open_first by exact F.
      rewrite after_fence_token by assumption.
      apply wf_token; auto. apply IH.
      rewrite !length_app in Hle. rewrite FENCE_chars in Hle.
      simpl in Hle. rewrite !length_app in L. lia.
    + rewrite sub_open_none by exact C. now constructor.
Qed.

End FenceTokens.

(** C5, as stated, fails: a fence token inside the text is removed as
    well, where the specification's wording leaves it in place. *)
Lemma fence_strip_inner_counterexample :
  strip_outer_fences (lit "a```b") = lit "a```b"
  /\ fenced_removed (lit "a```b") = lit "ab"
  /\ fenced_removed (lit "a```b") <> strip_outer_fences (lit "a```b").
Proof. repeat split. discriminate. Qed.

(** C5, amended.  The fence-stripping step removes every fence token
    wherever it stands, with the json tag directly after it and the
    whitespace that follows, then trims; every other character is kept in
    its place.  In full: the cleaned text is the trim of the text without
    its fence tokens (which exists and is the only one); the second
    substitution has nothing left to remove; the cleaned text has no fence
    token; it is the text with characters deleted and none changed or
    moved; a text without fence tokens is only trimmed; and what stands
    before the first fence token is kept as it is. *)
Theorem fence_strip_everywhere (text : str) :
  (exists out, without_fences text out /\ fenced_removed text = strip out)
  /\ (forall out, without_fences text out -> fenced_removed text = strip out)
  /\ fenced_removed text = strip (Re.sub Re.fence_open text)
  /\ contains (fenced_removed text) FENCE = false
  /\ subseq (fenced_removed text) text
  /\ (contains text FENCE = false -> fenced_removed text = strip text)
  /\ (forall a b,
        text = a ++ FENCE ++ b ->
        contains (a ++ [backtick; backtick]) FENCE = false ->
        fenced_removed text
        = strip (a ++ Re.sub Re.fence_open (Re.after_fence b))).
Proof.
  split.
  { exists (Re.sub Re.fence_open text).
    split; [apply sub_without_fences | apply fenced_removed_eq]. }
  split.
  { intros out W. rewrite fenced_removed_eq.
    now rewrite (without_fences_sub _ _ W). }
  split; [apply fenced_removed_eq|].
  split; [apply fenced_removed_clean|].
  split; [apply fenced_removed_subseq|].
  split; [apply fenced_removed_no_fence|].
  intros a b -> H. rewrite fenced_removed_eq. f_equal.
  now apply sub_open_first.
Qed.

Lemma fence_strip_everywhere_witness :
  fenced_removed (lit "  plain text ") = lit "plain text"
  /\ fenced_removed (lit "see ```json {x} ``` and `` ``` y")
     = strip (lit "see " ++ Re.sub Re.fence_open (lit "{x} ``` and `` ``` y"))
  /\ fenced_removed (lit "a ```json  {x}```b") = strip (lit "a {x}b").
Proof.
  split; [|split].
  - apply (proj1 (proj2 (proj2 (proj2 (proj2 (proj2
             (fence_strip_everywhere (lit "  plain text ")))))))).
    reflexivity.
  - apply (proj2 (proj2 (proj2 (proj2 (proj2 (proj2
             (fence_strip_everywhere
                (lit "see ```json {x} ``` and `` ``` y")))))))
             (lit "see ") (lit "json {x} ``` and `` ``` y"));
      reflexivity.
  - apply (proj1 (proj2 (fence_strip_everywhere
                           (lit "a ```json  {x}```b")))).
    apply (wf_token (lit "a ") (lit "json") (lit "  ") (lit "{x}```b")
             (lit "{x}b")); try reflexivity; [now left|].
    apply (wf_token (lit "{x}") [] [] (lit "b") (lit "b"));
      try reflexivity; [right; split; reflexivity|].
    apply wf_clean. reflexivity.
Defined.

(** The fenced example of the specification. *)
Example extract_fenced_example :
  _extract_json_from_text
    (Some (lit "```json" ++ newline :: lit "{" ++ quoted "a" ++ lit ":1}"
           ++ newline :: lit "```"))
  = Some (lit "{" ++ quoted "a" ++ lit ":1}").
Proof. reflexivity. Qed.

(** C6. The extractor returns nothing exactly when its input is empty or
    absent, or the cleaned text has no [{] before a [}]; so it returns
    nothing on the empty text, on an absent text, and on any text without
    braces. *)
Theorem extract_absent_iff :
  (forall text,
      _extract_json_from_text text = None
      <-> truthy_opt text = false
          \/ ~ brace_pair (fenced_removed (or_empty text)))
  /\ _extract_json_from_text (Some []) = None
  /\ _extract_json_from_text None = None
  /\ (forall t, ~ In lbrace t -> ~ In rbrace t ->
                _extract_json_from_text (Some t) = None).
Proof.
  assert (Main : forall text,
      _extract_json_from_text text = None
      <-> truthy_opt text = false
          \/ ~ brace_pair (fenced_removed (or_empty text))).
  { intros text. split.
    - intros H. destruct (truthy_opt text) eqn:T; [right|left; reflexivity].
      destruct text as [t|]; [|discriminate]. simpl in T |- *. rewrite T.
      intros P. destruct (pair_first_last _ P) as [a [m [b [E [Ha Hb]]]]].
      rewrite (extract_pair t a m b E Ha Hb) in H. discriminate.
    - intros [T|P].
      + destruct text as [t|]; [|reflexivity]. simpl in T.
        unfold _extract_json_from_text. now rewrite T.
      + destruct (_extract_json_from_text text) as [j|] eqn:X; [|reflexivity].
        destruct (extract_some _ _ X) as [t [-> [T P']]].
        simpl in P. rewrite T in P. contradiction. }
  split; [exact Main|]. split; [reflexivity|]. split; [reflexivity|].
  intros t Hl Hr. apply Main. right.
  intros [a [m [b E]]]. apply Hl.
  apply (subseq_In (fenced_removed (or_empty (Some t))) t).
  - simpl. destruct (truthy t) eqn:T; [apply fenced_removed_subseq|].
    destruct t; [constructor | discriminate].
  - rewrite E. apply in_or_app. right. left. reflexivity.
Qed.

Lemma extract_absent_iff_witness :
  _extract_json_from_text (Some (lit "no braces here")) = None.
Proof.
  apply (proj2 (proj2 (proj2 extract_absent_iff)));
    apply contains_single; reflexivity.
Defined.

(** C7 fails on the code for a text the decoder refuses with another
    exception than [JSONDecodeError]: an extracted text that is malformed
    after an integer literal of 4301 digits makes [json.loads] raise
    [ValueError], and the call raises instead of returning the
    decode-error record. *)
Theorem malformed_text_raises_value_error :
  _extract_json_from_text (Some (strip malformed_long_reply))
  = Some malformed_long_reply
  /\ Json.loads (LIMITS cfg_openai) malformed_long_reply = Json.ValueError
  /\ fst (generate_reflection cfg_openai (replies malformed_long_reply)
            None None None None)
     = Raise VALUE_ERROR.
Proof. vm_compute. repeat split. Qed.

(** When the extractor finds a text that the decoder refuses with
    [JSONDecodeError], the call returns the decode-error record whose raw
    field is that extracted text, not the whole reply of the provider. *)
Lemma json_decode_error_raw (cfg : config) (llm : provider)
  (journal intention dream priorities : option str)
  (kwargs : llm_kwargs) (prompt : str) (raw_output : option str)
  (json_text : str) :
  _build_llm cfg = Return kwargs ->
  Prompt.build_prompt (or_empty journal) (or_empty intention)
    (or_empty dream) (or_empty priorities) = Some prompt ->
  llm kwargs prompt = Completed raw_output ->
  _extract_json_from_text (Some (strip (or_empty raw_output)))
  = Some json_text ->
  Json.loads cfg.(LIMITS) json_text = Json.JSONDecodeError ->
  generate_reflection cfg llm journal intention dream priorities
  = (Return [(lit "error", PStr JSON_DECODE_ERROR);
             (lit "raw", PStr json_text)],
     [(kwargs, prompt)]).
Proof.
  intros B P R X L. unfold generate_reflection, call_llm.
  rewrite (build_llm_key _ _ B), B, P, R. cbn [orb negb]. rewrite X.
  destruct (extract_braced _ _ X) as [m ->]. cbn [truthy negb].
  now rewrite L.
Qed.

Lemma json_decode_error_raw_witness :
  generate_reflection cfg_openai (replies malformed_reply)
    (Some (lit "j")) (Some (lit "i")) (Some (lit "d")) (Some (lit "p"))
  = (Return [(lit "error", PStr JSON_DECODE_ERROR);
             (lit "raw", PStr malformed_json)],
     [(kwargs_openai,
       rendered_prompt (lit "j") (lit "i") (lit "d") (lit "p"))])
  /\ malformed_json <> strip malformed_reply.
Proof.
  split; [|discriminate].
  apply (json_decode_error_raw cfg_openai (replies malformed_reply)
           (Some (lit "j")) (Some (lit "i")) (Some (lit "d")) (Some (lit "p"))
           kwargs_openai
           (rendered_prompt (lit "j") (lit "i") (lit "d") (lit "p"))
           (Some malformed_reply) malformed_json); reflexivity.
Defined.

(** The two end-to-end scenarios of the specification with a reply. *)
Example malformed_scenario :
  fst (generate_reflection cfg_openai (replies malformed_json)
         None None None None)
  = Return [(lit "error", PStr JSON_DECODE_ERROR);
            (lit "raw", PStr malformed_json)].
Proof. reflexivity. Qed.

Example good_scenario :
  fst (generate_reflection cfg_openai (replies good_reply)
         None None None None)
  = Return [(lit "reflection", PStr (lit "r"));
            (lit "dream_summary", PStr (lit "d"));
            (lit "mindset", PStr (lit "m"));
            (lit "strategy", PStr (lit "s"))].
Proof. reflexivity. Qed.

(** C8. The prompt is the fixed text with each of the four inputs inserted
    once, as it is, after its label: Morning Journal, Intention, Dream,
    Top 3 Priorities; nothing of an input is escaped or interpreted, so the
    prompt is longer than the fixed text by the inputs' lengths. *)
Theorem build_prompt_slots (journal intention dream priorities : str) :
  Prompt.build_prompt journal intention dream priorities
  = Some (PROMPT_HEAD
          ++ lit "Morning Journal: " ++ journal
          ++ newline :: lit "Intention: " ++ intention
          ++ newline :: lit "Dream: " ++ dream
          ++ newline :: lit "Top 3 Priorities: " ++ priorities
          ++ PROMPT_TAIL)
  /\ length (rendered_prompt journal intention dream priorities)
     = length (rendered_prompt [] [] [] [])
       + length journal + length intention + length dream
       + length priorities.
Proof.
  split; [reflexivity|].
  unfold rendered_prompt.
  repeat (rewrite ?length_app; cbn [length]). lia.
Qed.

(** Braces in an input reach the prompt as they are. *)
Example build_prompt_literal :
  Prompt.build_prompt (lit "{dream}") (lit "}}") [] (lit "{{")
  = Some (rendered_prompt (lit "{dream}") (lit "}}") [] (lit "{{")).
Proof. reflexivity. Qed.

(** C9. Whatever the extractor returns starts with [{] and ends with [}];
    so whenever the decoder accepts an extracted text, the value is an
    object, not an array, a number, a string or null. *)
Theorem extract_braced_object (text : option str) (j : str) :
  _extract_json_from_text text = Some j ->
  (exists m, j = lbrace :: m ++ [rbrace])
  /\ (forall lim v,
        Json.loads lim j = Json.Loaded v -> exists d, v = Json.Object d).
Proof.
  intros H. destruct (extract_braced _ _ H) as [m ->].
  split; [eauto|]. intros lim v. apply JsonFacts.loads_object.
Qed.

Lemma extract_braced_object_witness :
  (exists m, lit "{" ++ quoted "a" ++ lit ":1}" = lbrace :: m ++ [rbrace])
  /\ (forall lim v,
        Json.loads lim (lit "{" ++ quoted "a" ++ lit ":1}") = Json.Loaded v ->
        exists d, v = Json.Object d).
Proof.
  apply (extract_braced_object
           (Some (lit "result: {" ++ quoted "a" ++ lit ":1} thanks"))).
  reflexivity.
Defined.

(** C10. With only the fallback credential set, the credential check is
    passed, building the client raises for the missing primary key before
    any request, and the call returns the record of a failed call; the
    record of the missing credentials is returned only when both are
    unset or empty. *)
Theorem fallback_only_llm_call_failed (cfg : config) (llm : provider)
  (journal intention dream priorities : option str) :
  (truthy_opt cfg.(OPENAI_API_KEY) = false ->
   truthy_opt cfg.(TOGETHER_API_KEY) = true ->
   generate_reflection cfg llm journal intention dream priorities
   = (Return [(lit "error", PStr LLM_CALL_FAILED);
              (lit "raw", PStr NO_OPENAI_KEY)], []))
  /\ (forall r,
        fst (generate_reflection cfg llm journal intention dream priorities)
        = Return r ->
        item r (lit "error") = Some (PStr NO_KEY_ERROR) ->
        truthy_opt cfg.(OPENAI_API_KEY) = false
        /\ truthy_opt cfg.(TOGETHER_API_KEY) = false).
Proof.
  split.
  - intros K1 K2. unfold generate_reflection, call_llm.
    now rewrite K1, K2, (build_llm_no_key _ K1).
  - intros r Hr Hi.
    destruct (generate_reflection_endings cfg llm journal intention dream
                priorities) as [[_ K]|E]; [exact K|].
    exfalso. rewrite Hr in E.
    inversion E as [exc X|raw X|raw X| | |d X]; subst; try discriminate Hi.
    apply normalize_returns in X. destruct X as [_ X].
    congruence.
Qed.

Lemma fallback_only_llm_call_failed_witness :
  generate_reflection cfg_together (replies good_reply)
    (Some (lit "j")) (Some (lit "i")) (Some (lit "d")) (Some (lit "p"))
  = (Return [(lit "error", PStr LLM_CALL_FAILED);
             (lit "raw", PStr NO_OPENAI_KEY)], []).
Proof.
  apply (proj1 (fallback_only_llm_call_failed cfg_together
                  (replies good_reply) (Some (lit "j")) (Some (lit "i"))
                  (Some (lit "d")) (Some (lit "p")))); reflexivity.
Defined.

(** * Further properties *)

(** ** The extractor on its own results and on fenced replies *)

Section ExtractorMore.

Lemma extract_infix (text : option str) (j : str) :
  _extract_json_from_text text = Some j ->
  exists t a b, text = Some t /\ fenced_removed t = a ++ j ++ b.
Proof.
  intros H. destruct (extract_some _ _ H) as [t [-> [_ P]]].
  destruct (pair_first_last _ P) as [a [m [b [E [Ha Hb]]]]].
  rewrite (extract_pair t a m b E Ha Hb) in H. injection H as <-.
  exists t, a, b. split; [reflexivity|]. rewrite E. simpl.
  now rewrite <- app_assoc.
Qed.

Lemma lstrip_spaces (w r : str) (c : char) :
  forallb isspace w = true -> isspace c = false ->
  lstrip (w ++ c :: r) = c :: r.
Proof.
  intros W C. induction w as [|x w IH]; simpl in *.
  - now rewrite C.
  - apply andb_prop in W. destruct W as [-> W]. auto.
Qed.

Lemma lstrip_all_spaces (w : str) :
  forallb isspace w = true -> lstrip w = [].
Proof.
  induction w as [|x w IH]; simpl; [reflexivity|].
  intros W. apply andb_prop in W. destruct W as [-> W]. auto.
Qed.

Lemma forallb_rev (f : char -> bool) (w : str) :
  forallb f w = true -> forallb f (rev w) = true.
Proof.
  rewrite !forallb_forall. intros H x Hx. apply H, in_rev, Hx.
Qed.

Lemma rstrip_spaces (x w : str) (e : char) :
  forallb isspace w = true -> isspace e = false ->
  rstrip (x ++ e :: w) = x ++ [e].
Proof.
  intros W E. unfold rstrip. rewrite rev_app_distr. simpl rev.
  rewrite <- app_assoc. simpl.
  rewrite lstrip_spaces by (auto using forallb_rev).
  simpl. now rewrite rev_involutive.
Qed.

(** A braced text followed by whitespace trims to the braced text. *)
Lemma strip_braced (m w : str) :
  forallb isspace w = true ->
  strip ((lbrace :: m ++ [rbrace]) ++ w) = lbrace :: m ++ [rbrace].
Proof.
  intros W. unfold strip.
  rewrite lstrip_fix by reflexivity.
  change ((lbrace :: m ++ [rbrace]) ++ w)
    with (lbrace :: (m ++ [rbrace]) ++ w).
  rewrite <- app_assoc.
  apply (rstrip_spaces (lbrace :: m) w rbrace W). reflexivity.
Qed.

Lemma space_not_backtick (w : str) :
  forallb isspace w = true -> ~ In backtick w.
Proof.
  rewrite forallb_forall. intros W H. apply W in H. discriminate H.
Qed.

(** A text without backticks, followed by two of them, holds no fence. *)
Lemma no_backtick_clean (x : str) :
  ~ In backtick x -> contains (x ++ [backtick; backtick]) FENCE = false.
Proof.
  induction x as [|c x IH]; intros H; [reflexivity|].
  simpl in H. cbn [app contains]. rewrite IH by tauto.
  rewrite FENCE_chars. cbn [startswith].
  destruct (char_eqb backtick c) eqn:E; [|reflexivity].
  apply char_eqb_eq in E. subst. tauto.
Qed.

Lemma after_fence_tagged (w r : str) (c : char) :
  forallb isspace w = true -> isspace c = false ->
  Re.after_fence (lit "json" ++ w ++ c :: r) = c :: r.
Proof.
  intros W C. unfold Re.after_fence.
  change (startswith (lit "json" ++ w ++ c :: r) (lit "json")) with true.
  cbv iota. change (skipn 4 (lit "json" ++ w ++ c :: r)) with (w ++ c :: r).
  now apply lstrip_spaces.
Qed.

Lemma after_fence_bare (w r : str) :
  forallb isspace w = true ->
  Re.after_fence (w ++ lbrace :: r) = lbrace :: r.
Proof.
  intros W. unfold Re.after_fence.
  assert (S : startswith (w ++ lbrace :: r) (lit "json") = false).
  { destruct w as [|x w]; [reflexivity|]. simpl in W.
    apply andb_prop in W. destruct W as [X _].
    change (lit "json") with [106%N; 115%N; 111%N; 110%N].
    cbn [app startswith].
    destruct (char_eqb 106%N x) eqn:E; [|reflexivity].
    apply char_eqb_eq in E. subst. discriminate X. }
  rewrite S. now apply lstrip_spaces.
Qed.

Lemma sub_open_head (b : str) :
  Re.sub Re.fence_open (FENCE ++ b)
  = Re.sub Re.fence_open (Re.after_fence b).
Proof. exact (sub_open_first [] b eq_refl). Qed.

(** The cleaned form of a braced text between fences. *)
Lemma fenced_removed_fenced (tag w1 m w2 : str) :
  tag = [] \/ tag = lit "json" ->
  forallb isspace w1 = true -> forallb isspace w2 = true ->
  ~ In backtick m ->
  fenced_removed
    (FENCE ++ tag ++ w1 ++ (lbrace :: m ++ [rbrace]) ++ w2 ++ FENCE)
  = lbrace :: m ++ [rbrace].
Proof.
  intros T W1 W2 M. rewrite fenced_removed_eq.
  rewrite sub_open_head.
  assert (A : Re.after_fence
                (tag ++ w1 ++ (lbrace :: m ++ [rbrace]) ++ w2 ++ FENCE)
              = ((lbrace :: m ++ [rbrace]) ++ w2) ++ FENCE ++ []).
  { rewrite app_nil_r, <- app_assoc.
    destruct T as [-> | ->].
    - apply after_fence_bare, W1.
    - now apply after_fence_tagged. }
  rewrite A, sub_open_first.
  - change (Re.sub Re.fence_open (Re.after_fence [])) with (@nil char).
    rewrite app_nil_r. now apply strip_braced.
  - apply no_backtick_clean. intros H.
    apply in_app_or in H. destruct H as [H|H].
    + simpl in H. destruct H as [H|H]; [discriminate H|].
      apply in_app_or in H. destruct H as [H|[H|[]]];
        [tauto | discriminate H].
    + now apply space_not_backtick in H.
Qed.

End ExtractorMore.

(** Extraction is idempotent: what it returns is returned unchanged when
    extracted again. *)
Theorem extract_idempotent (text : option str) (j : str) :
  _extract_json_from_text text = Some j ->
  _extract_json_from_text (Some j) = Some j.
Proof.
  intros H. destruct (extract_braced _ _ H) as [m Ej].
  destruct (extract_infix _ _ H) as [t [a [b [_ E]]]].
  assert (C : contains j FENCE = false).
  { assert (F := fenced_removed_clean t). rewrite E in F.
    now apply contains_tail, contains_prefix in F. }
  subst j. apply (extract_pair _ [] m []); [|tauto|tauto].
  rewrite fenced_removed_no_fence by exact C.
  apply strip_fix; reflexivity.
Qed.

Lemma extract_idempotent_witness :
  _extract_json_from_text (Some (lit "{" ++ quoted "a" ++ lit ":1}"))
  = Some (lit "{" ++ quoted "a" ++ lit ":1}").
Proof.
  apply (extract_idempotent
           (Some (lit "here: {" ++ quoted "a" ++ lit ":1} thanks"))).
  reflexivity.
Defined.

(** The extractor invents nothing: its result is the input with
    characters deleted, and holds no fence token. *)
Theorem extract_deletes_only (text j : str) :
  _extract_json_from_text (Some text) = Some j ->
  subseq j text /\ contains j FENCE = false.
Proof.
  intros H. destruct (extract_infix _ _ H) as [t [a [b [T E]]]].
  injection T as <-. split.
  - apply (subseq_trans _ (fenced_removed text));
      [|apply fenced_removed_subseq].
    rewrite E. eapply subseq_trans; [apply subseq_take | apply subseq_skip].
  - assert (F := fenced_removed_clean text). rewrite E in F.
    now apply contains_tail, contains_prefix in F.
Qed.

Lemma extract_deletes_only_witness :
  subseq (lit "{a}") (lit "x ```json {a``` } y")
  /\ contains (lit "{a}") FENCE = false.
Proof.
  apply (extract_deletes_only (lit "x ```json {a``` } y")). reflexivity.
Defined.

(** A braced text without backticks, alone between an opening fence (with
    or without the json tag) and a closing fence, with any whitespace
    around it, is extracted exactly. *)
Theorem extract_fenced_object (tag w1 m w2 : str) :
  tag = [] \/ tag = lit "json" ->
  forallb isspace w1 = true -> forallb isspace w2 = true ->
  ~ In backtick m ->
  _extract_json_from_text
    (Some (FENCE ++ tag ++ w1 ++ (lbrace :: m ++ [rbrace]) ++ w2 ++ FENCE))
  = Some (lbrace :: m ++ [rbrace]).
Proof.
  intros T W1 W2 M. apply (extract_pair _ [] m []); [|tauto|tauto].
  now apply fenced_removed_fenced.
Qed.

Lemma extract_fenced_object_witness :
  _extract_json_from_text (Some fenced_reply)
  = Some (lit "{" ++ quoted "a" ++ lit ":1}").
Proof.
  apply (extract_fenced_object (lit "json") [newline]
           (quoted "a" ++ lit ":1") [newline]).
  - right. reflexivity.
  - reflexivity.
  - reflexivity.
  - apply contains_single. reflexivity.
Defined.

(** ** The other endings of [generate_reflection] *)

Section OrchestratorMore.

Variables (cfg : config) (llm : provider).
Variables (journal intention dream priorities : option str).

Lemma build_prompt_rendered (j i d p : str) :
  Prompt.build_prompt j i d p = Some (rendered_prompt j i d p).
Proof. reflexivity. Qed.

Lemma build_llm_with_key (key : str) :
  cfg.(OPENAI_API_KEY) = Some key -> truthy key = true ->
  _build_llm cfg
  = Return {| model := cfg.(LLM_MODEL);
              temperature := cfg.(TEMPERATURE);
              openai_api_key := key;
              openai_api_base :=
                if truthy_opt cfg.(OPENAI_BASE_URL)
                then cfg.(OPENAI_BASE_URL) else None |}.
Proof. unfold _build_llm. intros -> ->. reflexivity. Qed.

Lemma call_llm_requests (j i d p : str) :
  snd (call_llm cfg llm j i d p)
  = match _build_llm cfg with
    | Return kwargs => [(kwargs, rendered_prompt j i d p)]
    | Raise _ => []
    end.
Proof.
  unfold call_llm. destruct (_build_llm cfg) as [kwargs|e]; [|reflexivity].
  rewrite build_prompt_rendered. now destruct (llm kwargs _).
Qed.

Lemma generate_reflection_requests :
  snd (generate_reflection cfg llm journal intention dream priorities)
  = if truthy_opt cfg.(OPENAI_API_KEY) || truthy_opt cfg.(TOGETHER_API_KEY)
    then snd (call_llm cfg llm (or_empty journal) (or_empty intention)
                (or_empty dream) (or_empty priorities))
    else [].
Proof.
  unfold generate_reflection.
  destruct (truthy_opt cfg.(OPENAI_API_KEY)
            || truthy_opt cfg.(TOGETHER_API_KEY)); [|reflexivity].
  cbn [negb].
  destruct (call_llm _ _ _ _ _ _) as [[raw_output|exc] calls];
    [|reflexivity].
  cbn [snd]. destruct (_extract_json_from_text _) as [j|]; [|reflexivity].
  destruct (negb (truthy j)); [reflexivity|].
  now destruct (Json.loads _ j).
Qed.

End OrchestratorMore.

(** When the provider fails, the call returns the record of a failed call
    whose raw field is the text of the failure, after the one request. *)
Theorem provider_failure_reported (cfg : config) (llm : provider)
  (journal intention dream priorities : option str)
  (kwargs : llm_kwargs) (message : str) :
  _build_llm cfg = Return kwargs ->
  llm kwargs (rendered_prompt (or_empty journal) (or_empty intention)
                (or_empty dream) (or_empty priorities)) = Failed message ->
  generate_reflection cfg llm journal intention dream priorities
  = (Return [(lit "error", PStr LLM_CALL_FAILED); (lit "raw", PStr message)],
     [(kwargs, rendered_prompt (or_empty journal) (or_empty intention)
                 (or_empty dream) (or_empty priorities))]).
Proof.
  intros B F. unfold generate_reflection, call_llm.
  rewrite (build_llm_key _ _ B), B, build_prompt_rendered, F. reflexivity.
Qed.

Lemma provider_failure_reported_witness :
  generate_reflection cfg_openai (fails (lit "timeout"))
    (Some (lit "j")) None None (Some (lit "p"))
  = (Return [(lit "error", PStr LLM_CALL_FAILED);
             (lit "raw", PStr (lit "timeout"))],
     [(kwargs_openai, rendered_prompt (lit "j") [] [] (lit "p"))]).
Proof.
  apply (provider_failure_reported cfg_openai (fails (lit "timeout"))
           (Some (lit "j")) None None (Some (lit "p")) kwargs_openai);
    reflexivity.
Defined.

(** When the reply, cleaned of fences, has no [{] before a [}], the call
    returns the no-JSON record whose raw field is the whole reply,
    trimmed; an absent or blank reply gives an empty raw field. *)
Theorem no_json_reported (cfg : config) (llm : provider)
  (journal intention dream priorities : option str)
  (kwargs : llm_kwargs) (raw_output : option str) :
  _build_llm cfg = Return kwargs ->
  llm kwargs (rendered_prompt (or_empty journal) (or_empty intention)
                (or_empty dream) (or_empty priorities))
  = Completed raw_output ->
  ~ brace_pair (fenced_removed (strip (or_empty raw_output))) ->
  fst (generate_reflection cfg llm journal intention dream priorities)
  = Return [(lit "error", PStr NO_JSON_FOUND);
            (lit "raw", PStr (strip (or_empty raw_output)))].
Proof.
  intros B C P. unfold generate_reflection, call_llm.
  rewrite (build_llm_key _ _ B), B, build_prompt_rendered, C. cbn [orb negb].
  destruct (_extract_json_from_text _) as [j|] eqn:X; [|reflexivity].
  exfalso. apply P. destruct (extract_some _ _ X) as [t [T [_ Q]]].
  injection T as <-. exact Q.
Qed.

Lemma no_json_reported_witness :
  fst (generate_reflection cfg_openai (replies (lit "  I cannot } help { "))
         None None None None)
  = Return [(lit "error", PStr NO_JSON_FOUND);
            (lit "raw", PStr (lit "I cannot } help {"))].
Proof.
  apply (no_json_reported cfg_openai (replies (lit "  I cannot } help { "))
           None None None None kwargs_openai
           (Some (lit "  I cannot } help { "))); try reflexivity.
  intros P. destruct (pair_first_last _ P) as [a [m [b [E [Ha Hb]]]]].
  assert (X := extract_pair (lit "I cannot } help {") a m b E Ha Hb).
  discriminate X.
Defined.

(** When the extracted text decodes, the call returns the four fields of
    the decoded object: each the trimmed string under its key, or the
    empty string. *)
Theorem decoded_reply_normalized (cfg : config) (llm : provider)
  (journal intention dream priorities : option str)
  (kwargs : llm_kwargs) (raw_output : option str) (json_text : str)
  (data : Json.value) :
  _build_llm cfg = Return kwargs ->
  llm kwargs (rendered_prompt (or_empty journal) (or_empty intention)
                (or_empty dream) (or_empty priorities))
  = Completed raw_output ->
  _extract_json_from_text (Some (strip (or_empty raw_output)))
  = Some json_text ->
  Json.loads cfg.(LIMITS) json_text = Json.Loaded data ->
  exists d,
    data = Json.Object d
    /\ fst (generate_reflection cfg llm journal intention dream priorities)
       = Return
           [(lit "reflection", PStr (field_value d (lit "reflection")));
            (lit "dream_summary", PStr (field_value d (lit "dream_summary")));
            (lit "mindset", PStr (field_value d (lit "mindset")));
            (lit "strategy", PStr (field_value d (lit "strategy")))].
Proof.
  intros B C X L. destruct (extract_braced _ _ X) as [m ->].
  destruct (JsonFacts.loads_object _ _ _ L) as [d ->].
  exists d. split; [reflexivity|].
  unfold generate_reflection, call_llm.
  rewrite (build_llm_key _ _ B), B, build_prompt_rendered, C. cbn [orb negb].
  rewrite X. cbn [truthy negb]. rewrite L. apply normalize_object.
Qed.

Lemma decoded_reply_normalized_witness :
  exists d,
    Json.Object [(lit "strategy", Json.Str (lit " walk "));
                 (lit "mindset", Json.Int 3)] = Json.Object d
    /\ fst (generate_reflection cfg_openai
              (replies (lit "ok {" ++ quoted "strategy" ++ lit ":"
                        ++ quoted " walk " ++ lit ","
                        ++ quoted "mindset" ++ lit ":3} bye"))
              None None None None)
       = Return
           [(lit "reflection", PStr (field_value d (lit "reflection")));
            (lit "dream_summary", PStr (field_value d (lit "dream_summary")));
            (lit "mindset", PStr (field_value d (lit "mindset")));
            (lit "strategy", PStr (field_value d (lit "strategy")))].
Proof.
  apply (decoded_reply_normalized cfg_openai _ None None None None
           kwargs_openai
           (Some (lit "ok {" ++ quoted "strategy" ++ lit ":"
                  ++ quoted " walk " ++ lit ","
                  ++ quoted "mindset" ++ lit ":3} bye"))
           (lit "{" ++ quoted "strategy" ++ lit ":"
            ++ quoted " walk " ++ lit ","
            ++ quoted "mindset" ++ lit ":3}"));
    reflexivity.
Defined.

(** The provider is asked at most once: once, with the configured model,
    temperature and key (and the base URL only when it is set and not
    empty) and the prompt rendered from the inputs, when the primary key
    is set; never otherwise. *)
Theorem one_request_at_most (cfg : config) (llm : provider)
  (journal intention dream priorities : option str) :
  (forall key,
      cfg.(OPENAI_API_KEY) = Some key -> truthy key = true ->
      snd (generate_reflection cfg llm journal intention dream priorities)
      = [({| model := cfg.(LLM_MODEL);
             temperature := cfg.(TEMPERATURE);
             openai_api_key := key;
             openai_api_base :=
               if truthy_opt cfg.(OPENAI_BASE_URL)
               then cfg.(OPENAI_BASE_URL) else None |},
          rendered_prompt (or_empty journal) (or_empty intention)
            (or_empty dream) (or_empty priorities))])
  /\ (truthy_opt cfg.(OPENAI_API_KEY) = false ->
      snd (generate_reflection cfg llm journal intention dream priorities)
      = [])
  /\ length (snd (generate_reflection cfg llm journal intention dream
                    priorities)) <= 1.
Proof.
  rewrite generate_reflection_requests, call_llm_requests.
  repeat split.
  - intros key K T. rewrite (build_llm_with_key _ _ K T), K. simpl.
    now rewrite T.
  - intros K. rewrite (build_llm_no_key _ K). now destruct (_ || _).
  - destruct (_ || _); [|simpl; lia].
    destruct (_build_llm cfg); simpl; lia.
Qed.

Lemma one_request_at_most_witness :
  snd (generate_reflection cfg_openai (replies good_reply)
         (Some (lit "j")) None None None)
  = [(kwargs_openai, rendered_prompt (lit "j") [] [] [])].
Proof.
  apply (proj1 (one_request_at_most cfg_openai (replies good_reply)
                  (Some (lit "j")) None None None) (lit "sk-test"));
    reflexivity.
Defined.

(** The fallback credential is never used: with the primary key set, the
    call does the same whatever [TOGETHER_API_KEY] holds. *)
Theorem fallback_key_unused (cfg : config) (llm : provider)
  (journal intention dream priorities : option str) (key : option str) :
  truthy_opt cfg.(OPENAI_API_KEY) = true ->
  generate_reflection (with_together cfg key) llm journal intention dream
    priorities
  = generate_reflection cfg llm journal intention dream priorities.
Proof.
  intros K. unfold generate_reflection, call_llm, with_together, _build_llm.
  cbn [OPENAI_API_KEY TOGETHER_API_KEY OPENAI_BASE_URL LLM_MODEL TEMPERATURE].
  rewrite K. reflexivity.
Qed.

Lemma fallback_key_unused_witness :
  generate_reflection (with_together cfg_openai (Some (lit "tg")))
    (replies good_reply) None None None None
  = generate_reflection cfg_openai (replies good_reply) None None None None.
Proof.
  apply (fallback_key_unused cfg_openai (replies good_reply)
           None None None None (Some (lit "tg"))).
  reflexivity.
Defined.

(** Every value of a returned result record is a string that is already
    trimmed; none is [None]. *)
Theorem result_values_trimmed (cfg : config) (llm : provider)
  (journal intention dream priorities : option str) (r : pydict) :
  fst (generate_reflection cfg llm journal intention dream priorities)
  = Return r ->
  keys r = SUCCESS_KEYS ->
  forall k v, item r k = Some v -> exists s, v = PStr s /\ strip s = s.
Proof.
  intros H Hk k v Hi.
  assert (T : forall d key, strip (field_value d key) = field_value d key).
  { intros d key. unfold field_value.
    destruct (Json.dict_get d key) as [[]|]; try reflexivity.
    apply strip_idem. }
  destruct (generate_reflection_endings cfg llm journal intention dream
              priorities) as [[E _]|E]; rewrite H in E.
  - injection E as ->. discriminate Hk.
  - inversion E as [exc X|raw X|raw X| | |d X]; subst; try discriminate Hk.
    rewrite normalize_object in X. injection X as <-.
    cbn [item] in Hi.
    repeat match type of Hi with
           | (if ?c then _ else _) = _ =>
               destruct c; [injection Hi as <-; eauto|]
           end.
    discriminate Hi.
Qed.

Lemma result_values_trimmed_witness :
  exists s, PStr (lit "r") = PStr s /\ strip s = s.
Proof.
  apply (result_values_trimmed cfg_openai (replies good_reply)
           None None None None
           [(lit "reflection", PStr (lit "r"));
            (lit "dream_summary", PStr (lit "d"));
            (lit "mindset", PStr (lit "m"));
            (lit "strategy", PStr (lit "s"))]
           eq_refl eq_refl (lit "reflection")).
  reflexivity.
Defined.

(** ** Storage *)

Module DbFacts.
Import Db.

Lemma fold_max_ge (l : list Z) (s : Z) :
  (s <= fold_left Z.max l s)%Z
  /\ Forall (fun i => (i <= fold_left Z.max l s)%Z) l.
Proof.
  revert s. induction l as [|x l IH]; intros s; simpl.
  - split; [lia | constructor].
  - destruct (IH (Z.max s x)) as [H1 H2]. split; [lia|].
    constructor; [lia | exact H2].
Qed.

Lemma fold_max_bounded (l : list Z) (s : Z) :
  Forall (fun i => (i <= s)%Z) l -> fold_left Z.max l s = s.
Proof.
  revert s. induction l as [|x l IH]; intros s H; simpl; [reflexivity|].
  inversion H; subst. rewrite Z.max_l by assumption. auto.
Qed.

Lemma largest_well_keyed (t : table) :
  well_keyed t -> largest_rowid t = t.(seq).
Proof. intros [_ [H _]]. now apply fold_max_bounded. Qed.

Lemma largest_above (t : table) (r : row) :
  In r t.(rows) -> (rowid r <= largest_rowid t)%Z.
Proof.
  intros Hr.
  destruct (fold_max_ge (map rowid t.(rows)) t.(seq)) as [_ F].
  rewrite Forall_forall in F. apply F. now apply in_map.
Qed.

Lemma increasing_snoc (low i : Z) (ids : list Z) :
  increasing_from low ids ->
  Forall (fun k => (k < i)%Z) ids -> (low < i)%Z ->
  increasing_from low (ids ++ [i]).
Proof.
  revert low. induction ids as [|k ids IH]; intros low H F L; simpl in *.
  - auto.
  - inversion F as [|k' ids' Fk Fids]; subst.
    destruct H as [Hk Hids]. split; [exact Hk|].
    apply IH; assumption.
Qed.

Lemma increasing_bounds (low : Z) (ids : list Z) :
  increasing_from low ids -> Forall (fun i => (low < i)%Z) ids.
Proof.
  revert low. induction ids as [|k ids IH]; intros low H; constructor.
  - apply H.
  - destruct H as [L R]. apply IH in R.
    eapply Forall_impl; [|exact R]. simpl. intros; lia.
Qed.

Lemma increasing_NoDup (low : Z) (ids : list Z) :
  increasing_from low ids -> NoDup ids.
Proof.
  revert low. induction ids as [|k ids IH]; intros low H; constructor.
  - destruct H as [_ H]. apply increasing_bounds in H.
    rewrite Forall_forall in H. intros I. apply H in I. lia.
  - destruct H as [_ H]. eauto.
Qed.

(** *** Binding *)

Lemma bind_param_bindable (v : pyval) :
  bindable_value v = true -> bind_param v = Return (sql_value v).
Proof.
  destruct v as [|s]; [reflexivity|].
  cbn [bindable_value sql_value bind_param]. unfold bindable.
  intros H. apply andb_prop in H. destruct H as [E L].
  rewrite E. cbn [negb]. apply N.leb_le in L.
  destruct (N.ltb_spec INT_MAX (utf8_length s)) as [H|_];
    [unfold INT_MAX, SQLITE_MAX_LENGTH in *; lia|].
  destruct (N.ltb_spec SQLITE_MAX_LENGTH (utf8_length s));
    [lia | reflexivity].
Qed.

Lemma bind_param_unbindable (s : str) :
  bindable s = false ->
  bind_param (PStr s)
  = Raise (if negb (encodable s) then UNICODE_ENCODE_ERROR
           else if (INT_MAX <? utf8_length s)%N then STRING_TOO_LONG
           else TOO_BIG).
Proof.
  unfold bindable. cbn [bind_param].
  destruct (encodable s); cbn [negb andb]; [|reflexivity].
  intros L. apply N.leb_gt in L.
  destruct (INT_MAX <? utf8_length s)%N; [reflexivity|].
  destruct (N.ltb_spec SQLITE_MAX_LENGTH (utf8_length s));
    [reflexivity | lia].
Qed.

Lemma bind_parameters_bindable (ps : list pyval) :
  forallb bindable_value ps = true ->
  bind_parameters ps = Return (map sql_value ps).
Proof.
  induction ps as [|v ps IH]; cbn [forallb bind_parameters map];
    intros H; [reflexivity|].
  apply andb_prop in H. destruct H as [A B].
  rewrite (bind_param_bindable _ A). cbn [py_bind].
  now rewrite (IH B).
Qed.

Lemma bind_parameters_unbindable (before : list pyval) (s : str)
  (after : list pyval) :
  forallb bindable_value before = true -> bindable s = false ->
  bind_parameters (before ++ PStr s :: after)
  = Raise (if negb (encodable s) then UNICODE_ENCODE_ERROR
           else if (INT_MAX <? utf8_length s)%N then STRING_TOO_LONG
           else TOO_BIG).
Proof.
  intros B U. induction before as [|v before IH];
    cbn [app bind_parameters forallb] in *.
  - now rewrite (bind_param_unbindable _ U).
  - apply andb_prop in B. destruct B as [A B].
    rewrite (bind_param_bindable _ A). cbn [py_bind].
    now rewrite (IH B).
Qed.

(** The first argument that cannot be bound. *)
Lemma first_unbindable (ps : list pyval) :
  forallb bindable_value ps = false ->
  exists before s after,
    ps = before ++ PStr s :: after
    /\ forallb bindable_value before = true
    /\ bindable s = false.
Proof.
  induction ps as [|v ps IH]; cbn [forallb]; intros H; [discriminate H|].
  destruct (bindable_value v) eqn:V; cbn [andb] in H.
  - destruct (IH H) as [before [s [after [-> [B U]]]]].
    exists (v :: before), s, after. cbn [forallb]. rewrite V, B. auto.
  - destruct v as [|s]; [discriminate V|].
    exists [], s, ps. auto.
Qed.

Lemma bindable_strings (l : list str) :
  forallb bindable_value (map PStr l) = forallb bindable l.
Proof. induction l as [|s l IH]; simpl; congruence. Qed.

(** *** Insertion *)

Lemma too_big_fits (values : list cell) :
  (SQLITE_MAX_LENGTH <? record_size values)%N = negb (fits values).
Proof. unfold fits. apply N.ltb_antisym. Qed.

Lemma insert_cases (t : table) (values : list cell) :
  (MAX_ROWID <= largest_rowid t)%Z
  /\ insert t values = Raise DATABASE_FULL
  \/ (largest_rowid t < MAX_ROWID)%Z
     /\ fits values = false
     /\ insert t values = Raise TOO_BIG
  \/ (largest_rowid t < MAX_ROWID)%Z
     /\ fits values = true
     /\ insert t values
        = Return {| rows := t.(rows)
                            ++ [Integer (largest_rowid t + 1) :: values];
                    seq := largest_rowid t + 1 |}.
Proof.
  unfold insert. rewrite too_big_fits.
  destruct (Z.geb_spec (largest_rowid t) MAX_ROWID) as [F|F].
  - left. split; [lia | reflexivity].
  - right. destruct (fits values); [right | left];
      (split; [exact F|]); split; reflexivity.
Qed.

Lemma insert_well_keyed (t t' : table) (values : list cell) :
  well_keyed t -> insert t values = Return t' -> well_keyed t'.
Proof.
  intros W H.
  destruct (insert_cases t values) as [[_ E]|[[_ [_ E]]|[_ [_ E]]]];
    rewrite E in H; try discriminate H.
  injection H as <-. rewrite (largest_well_keyed t W).
  destruct W as [I [F P]].
  unfold well_keyed. cbn [rows seq]. rewrite map_app. cbn [map].
  change (rowid (Integer (seq t + 1) :: values)) with (seq t + 1)%Z.
  split; [|split].
  - apply increasing_snoc; [exact I| |lia].
    eapply Forall_impl; [|exact F]. simpl. intros; lia.
  - apply Forall_app. split.
    + eapply Forall_impl; [|exact F]. simpl. intros; lia.
    + constructor; [lia | constructor].
  - lia.
Qed.

(** The three ways [cursor.execute] ends on a file with the table. *)
Lemma execute_insert_unbindable (t : table) (before : list pyval)
  (s : str) (after : list pyval) :
  forallb bindable_value before = true -> bindable s = false ->
  execute_insert (Some t) (before ++ PStr s :: after)
  = (Raise (if negb (encodable s) then UNICODE_ENCODE_ERROR
            else if (INT_MAX <? utf8_length s)%N then STRING_TOO_LONG
            else TOO_BIG), Some t).
Proof.
  intros B U. unfold execute_insert.
  now rewrite (bind_parameters_unbindable before s after B U).
Qed.

Lemma execute_insert_bound (t : table) (ps : list pyval) :
  forallb bindable_value ps = true ->
  execute_insert (Some t) ps
  = match insert t (map sql_value ps) with
    | Return t' => (Return tt, Some t')
    | Raise e => (Raise e, Some t)
    end.
Proof.
  intros B. unfold execute_insert.
  now rewrite (bind_parameters_bindable ps B).
Qed.

Lemma execute_insert_stored (t : table) (ps : list pyval) :
  forallb bindable_value ps = true ->
  fits (map sql_value ps) = true ->
  (largest_rowid t < MAX_ROWID)%Z ->
  execute_insert (Some t) ps
  = (Return tt,
     Some {| rows := t.(rows)
                     ++ [Integer (largest_rowid t + 1) :: map sql_value ps];
             seq := largest_rowid t + 1 |}).
Proof.
  intros B F L. rewrite (execute_insert_bound t ps B).
  destruct (insert_cases t (map sql_value ps))
    as [[X _]|[[_ [X _]]|[_ [_ ->]]]]; [lia|congruence|reflexivity].
Qed.

Lemma execute_insert_refused (t : table) (ps : list pyval) :
  forallb bindable_value ps && fits (map sql_value ps) = false ->
  exists exc, execute_insert (Some t) ps = (Raise exc, Some t).
Proof.
  intros H. destruct (forallb bindable_value ps) eqn:B.
  - cbn [andb] in H. rewrite (execute_insert_bound t ps B).
    destruct (insert_cases t (map sql_value ps))
      as [[_ ->]|[[_ [_ ->]]|[_ [X _]]]]; [eauto|eauto|congruence].
  - destruct (first_unbindable ps B) as [before [s [after [-> [P U]]]]].
    rewrite (execute_insert_unbindable t before s after P U). eauto.
Qed.

Lemma execute_insert_cases (t : table) (ps : list pyval) :
  (exists exc, execute_insert (Some t) ps = (Raise exc, Some t))
  \/ execute_insert (Some t) ps
     = (Return tt,
        Some {| rows := t.(rows)
                        ++ [Integer (largest_rowid t + 1)
                            :: map sql_value ps];
                seq := largest_rowid t + 1 |}).
Proof.
  destruct (forallb bindable_value ps && fits (map sql_value ps)) eqn:S.
  - apply andb_prop in S. destruct S as [B F].
    rewrite (execute_insert_bound t ps B).
    destruct (insert_cases t (map sql_value ps))
      as [[_ ->]|[[_ [_ ->]]|[_ [_ ->]]]]; eauto.
  - left. now apply execute_insert_refused.
Qed.

Lemma apply_call_well_keyed (db : database) (c : call) :
  (forall t, db = Some t -> well_keyed t) ->
  forall t, apply_call db c = Some t -> well_keyed t.
Proof.
  intros W t. destruct c; simpl.
  - destruct db as [t0|]; intros H; injection H as <-; [auto|].
    split; [exact I|]. split; [constructor | simpl; lia].
  - unfold save_entry, execute_insert. destruct db as [t0|]; [|discriminate].
    destruct (bind_parameters _) as [values|e]; cbn [py_bind snd];
      [|intros H; injection H as <-; auto].
    destruct (insert t0 values) as [t1|e] eqn:E; cbn [snd]; intros H;
      injection H as <-; [|auto].
    eapply insert_well_keyed; eauto.
Qed.

Lemma run_well_keyed (calls : list call) (t : table) :
  run calls = Some t -> well_keyed t.
Proof.
  unfold run. revert t.
  induction calls as [|c calls IH] using rev_ind; intros t.
  - discriminate.
  - rewrite fold_left_app. simpl. apply apply_call_well_keyed. exact IH.
Qed.





Lemma str_eqb_refl (a : str) : str_eqb a a = true.
Proof. now apply str_eqb_eq. Qed.

Lemma str_eqb_neq (a b : str) : a <> b -> str_eqb a b = false.
Proof.
  intros H. destruct (str_eqb a b) eqn:E; [|reflexivity].
  apply str_eqb_eq in E. contradiction.
Qed.

(** A lookup after a row is added. *)
Lemma lookup_after (t : table) (id : Z) (values : list cell) (q : pyval) :
  get_entry_by_date
    (Some {| rows := t.(rows) ++ [Integer id :: values];
             seq := id |}) q
  = py_bind (get_entry_by_date (Some t) q) (fun found =>
    py_bind (bind_param q) (fun d =>
    Return (found ++ (if sql_eq (nth 0 values Null) d
                      then [Integer id :: values] else [])))).
Proof.
  cbn [get_entry_by_date rows].
  destruct (bind_param q) as [d|e]; cbn [py_bind]; [|reflexivity].
  rewrite filter_app. cbn [filter column nth]. reflexivity.
Qed.

End DbFacts.

(** [save_entry] only appends, and an exception leaves the database as it
    was.  It raises when the table is missing; else when one of the nine
    values cannot be bound, which is a text that holds a surrogate
    ([UnicodeEncodeError]) or is too long, the first such value deciding;
    else when no key is left; else when the record is too large.
    Otherwise it adds one row of ten columns after the others: a key
    greater than every key of the table, then the nine values in the
    order of the columns; no row already stored is changed or removed. *)
Theorem save_entry_appends (db : Db.database)
  (date journal intention dream priorities reflection strategy : pyval)
  (dream_summary mindset : option pyval) :
  let parameters :=
    [date; journal; intention; dream; priorities; reflection; strategy;
     Db.arg_or (PStr []) dream_summary; Db.arg_or (PStr []) mindset] in
  let saved := Db.save_entry db date journal intention dream priorities
                 reflection strategy dream_summary mindset in
  (db = None /\ saved = (Raise Db.NO_SUCH_TABLE, db))
  \/ (exists t before s after,
        db = Some t
        /\ parameters = before ++ PStr s :: after
        /\ forallb Db.bindable_value before = true
        /\ Db.bindable s = false
        /\ saved
           = (Raise (if negb (Db.encodable s) then Db.UNICODE_ENCODE_ERROR
                     else if (Db.INT_MAX <? Db.utf8_length s)%N
                          then Db.STRING_TOO_LONG
                          else Db.TOO_BIG), db))
  \/ (exists t,
        db = Some t
        /\ forallb Db.bindable_value parameters = true
        /\ (Db.MAX_ROWID <= Db.largest_rowid t)%Z
        /\ saved = (Raise Db.DATABASE_FULL, db))
  \/ (exists t,
        db = Some t
        /\ forallb Db.bindable_value parameters = true
        /\ (Db.largest_rowid t < Db.MAX_ROWID)%Z
        /\ Db.fits (map Db.sql_value parameters) = false
        /\ saved = (Raise Db.TOO_BIG, db))
  \/ (exists t new,
        db = Some t
        /\ forallb Db.bindable_value parameters = true
        /\ (Db.largest_rowid t < Db.MAX_ROWID)%Z
        /\ Db.fits (map Db.sql_value parameters) = true
        /\ new = Db.Integer (Db.largest_rowid t + 1)
                 :: map Db.sql_value parameters
        /\ saved
           = (Return tt,
              Some {| Db.rows := t.(Db.rows) ++ [new];
                      Db.seq := Db.rowid new |})
        /\ length new = 10
        /\ (forall r, In r t.(Db.rows) -> (Db.rowid r < Db.rowid new)%Z)).
Proof.
  cbv zeta. unfold Db.save_entry.
  set (parameters :=
         [date; journal; intention; dream; priorities; reflection; strategy;
          Db.arg_or (PStr []) dream_summary; Db.arg_or (PStr []) mindset]).
  destruct db as [t|]; [right | left; split; reflexivity].
  destruct (forallb Db.bindable_value parameters) eqn:B.
  - right. rewrite (DbFacts.execute_insert_bound t parameters B).
    destruct (DbFacts.insert_cases t (map Db.sql_value parameters))
      as [[L ->]|[[L [F ->]]|[L [F ->]]]].
    + left. exists t. auto.
    + right. left. exists t. auto.
    + right. right.
      exists t, (Db.Integer (Db.largest_rowid t + 1)
                 :: map Db.sql_value parameters).
      split; [reflexivity|]. split; [reflexivity|]. split; [exact L|].
      split; [exact F|]. split; [reflexivity|]. split; [reflexivity|].
      split; [reflexivity|].
      intros r Hr. apply DbFacts.largest_above in Hr.
      change (Db.rowid (Db.Integer (Db.largest_rowid t + 1) :: _))
        with (Db.largest_rowid t + 1)%Z.
      lia.
  - left. destruct (DbFacts.first_unbindable parameters B)
      as [before [s [after [E [P U]]]]].
    exists t, before, s, after.
    split; [reflexivity|]. split; [exact E|]. split; [exact P|].
    split; [exact U|]. rewrite E.
    now apply DbFacts.execute_insert_unbindable.
Qed.

(** An entry saved under a date is the last of the entries found under
    that date, after those found before; the entries found under any
    other date are the same as before.  This is for values that can be
    stored: texts without surrogates and a record within the size the
    library takes, with a key left. *)
Theorem save_then_lookup (t : Db.table) (date : str)
  (journal intention dream priorities reflection strategy : pyval)
  (dream_summary mindset : option pyval) :
  let parameters :=
    [PStr date; journal; intention; dream; priorities; reflection;
     strategy; Db.arg_or (PStr []) dream_summary;
     Db.arg_or (PStr []) mindset] in
  (Db.largest_rowid t < Db.MAX_ROWID)%Z ->
  forallb Db.bindable_value parameters = true ->
  Db.fits (map Db.sql_value parameters) = true ->
  let saved := Db.save_entry (Some t) (PStr date) journal intention dream
                 priorities reflection strategy dream_summary mindset in
  fst saved = Return tt
  /\ (exists found,
        Db.get_entry_by_date (Some t) (PStr date) = Return found
        /\ Db.get_entry_by_date (snd saved) (PStr date)
           = Return (found ++
               [Db.Integer (Db.largest_rowid t + 1)
                :: map Db.sql_value parameters]))
  /\ (forall other,
        other <> date ->
        Db.get_entry_by_date (snd saved) (PStr other)
        = Db.get_entry_by_date (Some t) (PStr other)).
Proof.
  cbv zeta. intros L B F. unfold Db.save_entry.
  rewrite (DbFacts.execute_insert_stored t _ B F L).
  cbn [fst snd]. split; [reflexivity|].
  assert (D : Db.bind_param (PStr date) = Return (Db.Text date)).
  { apply (DbFacts.bind_param_bindable (PStr date)).
    cbn [forallb] in B. apply andb_prop in B. apply B. }
  split.
  - exists (filter (fun r => Db.sql_eq (Db.column 1 r) (Db.Text date))
              t.(Db.rows)).
    rewrite DbFacts.lookup_after. cbn [Db.get_entry_by_date].
    rewrite D. cbn [py_bind]. split; [reflexivity|].
    cbn [map nth Db.sql_value Db.sql_eq].
    now rewrite DbFacts.str_eqb_refl.
  - intros other H. rewrite DbFacts.lookup_after.
    cbn [Db.get_entry_by_date].
    destruct (Db.bind_param (PStr other)) as [d|e] eqn:O;
      cbn [py_bind]; [|reflexivity].
    assert (d = Db.Text other) as ->.
    { cbn [Db.bind_param] in O.
      destruct (negb (Db.encodable other)); [discriminate O|].
      destruct (Db.INT_MAX <? Db.utf8_length other)%N; [discriminate O|].
      destruct (Db.SQLITE_MAX_LENGTH <? Db.utf8_length other)%N;
        [discriminate O|].
      now injection O as <-. }
    cbn [map nth Db.sql_value Db.sql_eq].
    rewrite DbFacts.str_eqb_neq by congruence. now rewrite app_nil_r.
Qed.

Lemma save_then_lookup_witness :
  Db.get_entry_by_date
    (snd (Db.save_entry (Db.init_db None) (PStr (lit "2024-05-01"))
            (PStr (lit "j")) (PStr (lit "i")) (PStr (lit "d"))
            (PStr (lit "p")) (PStr (lit "r")) (PStr (lit "s")) None None))
    (PStr (lit "2024-05-01"))
  = Return [[Db.Integer 1; Db.Text (lit "2024-05-01"); Db.Text (lit "j");
             Db.Text (lit "i"); Db.Text (lit "d"); Db.Text (lit "p");
             Db.Text (lit "r"); Db.Text (lit "s"); Db.Text []; Db.Text []]].
Proof.
  destruct (save_then_lookup {| Db.rows := []; Db.seq := 0 |}
              (lit "2024-05-01") (PStr (lit "j")) (PStr (lit "i"))
              (PStr (lit "d")) (PStr (lit "p")) (PStr (lit "r"))
              (PStr (lit "s")) None None eq_refl eq_refl eq_refl)
    as [_ [[found [F G]] _]].
  injection F as <-. exact G.
Defined.

(** An entry saved without a date is found under no date, and looking up
    without a date finds nothing: a comparison with [NULL] is never
    true. *)
Theorem null_date_never_found (db : Db.database)
  (journal intention dream priorities reflection strategy : pyval)
  (dream_summary mindset : option pyval) (query : pyval) :
  Db.get_entry_by_date
    (snd (Db.save_entry db PNone journal intention dream priorities
            reflection strategy dream_summary mindset)) query
  = Db.get_entry_by_date db query
  /\ (forall t, db = Some t -> Db.get_entry_by_date db PNone = Return []).
Proof.
  split.
  - unfold Db.save_entry. destruct db as [t|]; [|reflexivity].
    destruct (DbFacts.execute_insert_cases t
                [PNone; journal; intention; dream; priorities; reflection;
                 strategy; Db.arg_or (PStr []) dream_summary;
                 Db.arg_or (PStr []) mindset]) as [[exc ->]| ->];
      [reflexivity|].
    cbn [snd]. rewrite DbFacts.lookup_after.
    cbn [Db.get_entry_by_date].
    destruct (Db.bind_param query) as [d|e]; cbn [py_bind];
      [|reflexivity].
    cbn [map nth Db.sql_value Db.sql_eq]. now rewrite app_nil_r.
  - intros t ->. cbn [Db.get_entry_by_date Db.bind_param py_bind]. f_equal.
    induction (Db.rows t) as [|r l IH]; [reflexivity|].
    cbn [filter]. rewrite IH.
    now destruct (Db.column 1 r).
Qed.

Lemma null_date_never_found_witness :
  Db.get_entry_by_date (Db.init_db None) PNone = Return [].
Proof.
  apply (proj2 (null_date_never_found (Db.init_db None) PNone PNone PNone
                  PNone PNone PNone None None PNone)
           {| Db.rows := []; Db.seq := 0 |}).
  reflexivity.
Defined.

(** Whatever calls of [init_db] and [save_entry] were made on a new file,
    the keys of the stored rows are positive, increase in the order of
    insertion, never repeat, and none exceeds the recorded sequence. *)
Theorem keys_increase (calls : list Db.call) (t : Db.table) :
  Db.run calls = Some t ->
  Db.increasing_from 0 (map Db.rowid t.(Db.rows))
  /\ NoDup (map Db.rowid t.(Db.rows))
  /\ Forall (fun i => (i <= t.(Db.seq))%Z) (map Db.rowid t.(Db.rows)).
Proof.
  intros H. destruct (DbFacts.run_well_keyed _ _ H) as [I [F _]].
  split; [exact I|]. split; [|exact F].
  eapply DbFacts.increasing_NoDup; eauto.
Qed.

Lemma keys_increase_witness :
  Db.increasing_from 0 [1; 2]%Z
  /\ NoDup [1; 2]%Z
  /\ Forall (fun i => (i <= 2)%Z) [1; 2]%Z.
Proof.
  apply (keys_increase
           [Db.Save PNone PNone PNone PNone PNone PNone PNone None None;
            Db.Init;
            Db.Save (PStr (lit "a")) PNone PNone PNone PNone PNone PNone
              None None;
            Db.Init;
            Db.Save (PStr (lit "b")) PNone PNone PNone PNone PNone PNone
              None None]
           {| Db.rows :=
                [Db.Integer 1 :: map Db.sql_value
                   [PStr (lit "a"); PNone; PNone; PNone; PNone; PNone;
                    PNone; PStr []; PStr []];
                 Db.Integer 2 :: map Db.sql_value
                   [PStr (lit "b"); PNone; PNone; PNone; PNone; PNone;
                    PNone; PStr []; PStr []]];
              Db.seq := 2 |}).
  reflexivity.
Defined.




(** ** The form handler *)

Section Submit.

Variables (cfg : config) (llm : provider) (today : str).
Variables (db : Db.database) (journal dream intention priorities : str).

(** What the handler does with the record the agent returned. *)
Lemma on_submit_returned (r : pydict) :
  fst (generate_reflection cfg llm (Some journal) (Some intention)
         (Some dream) (Some priorities)) = Return r ->
  fst (Main.on_submit cfg llm today db journal dream intention priorities)
  = Db.execute_insert db
      [PStr today; PStr journal; PStr intention; PStr dream;
       PStr priorities;
       Main.get r (lit "reflection") (PStr []);
       Main.get r (lit "strategy") (PStr []);
       Main.get r (lit "dream_summary") (PStr []);
       Main.get r (lit "mindset") (PStr [])].
Proof.
  unfold Main.on_submit.
  destruct (generate_reflection _ _ _ _ _ _) as [res calls].
  cbn [fst]. intros ->. cbn [fst snd]. unfold Db.save_entry.
  cbn [Db.arg_or]. symmetry. apply surjective_pairing.
Qed.

End Submit.

(** An entry is saved even when the agent reports an error: with the
    table created and a key left, submitting the form after an error
    record stores one row with the date, the four inputs and four empty
    result columns.  That is so whenever the date and the inputs are
    texts that can be stored (without surrogates, and of a record within
    the size the library takes), as the date and the inputs of the form
    are; with any other text [save_entry] raises and nothing is stored. *)
Theorem submit_saves_after_error (cfg : config) (llm : provider)
  (today : str) (t : Db.table) (journal dream intention priorities : str)
  (r : pydict) :
  (Db.largest_rowid t < Db.MAX_ROWID)%Z ->
  fst (generate_reflection cfg llm (Some journal) (Some intention)
         (Some dream) (Some priorities)) = Return r ->
  keys r = ERROR_KEYS ->
  let texts := [today; journal; intention; dream; priorities] in
  let values := [Db.Text today; Db.Text journal; Db.Text intention;
                 Db.Text dream; Db.Text priorities; Db.Text [];
                 Db.Text []; Db.Text []; Db.Text []] in
  let done := fst (Main.on_submit cfg llm today (Some t) journal dream
                     intention priorities) in
  (forallb Db.bindable texts = true ->
   Db.fits values = true ->
   done
   = (Return tt,
      Some {| Db.rows :=
                t.(Db.rows) ++
                [[Db.Integer (Db.largest_rowid t + 1); Db.Text today;
                  Db.Text journal; Db.Text intention; Db.Text dream;
                  Db.Text priorities; Db.Text []; Db.Text []; Db.Text [];
                  Db.Text []]];
              Db.seq := Db.largest_rowid t + 1 |}))
  /\ (forallb Db.bindable texts && Db.fits values = false ->
      exists exc, done = (Raise exc, Some t)).
Proof.
  intros L H K. cbv zeta.
  rewrite (on_submit_returned cfg llm today (Some t) journal dream
             intention priorities r H).
  destruct r as [|[k1 v1] [|[k2 v2] [|]]]; try discriminate K.
  injection K as -> ->.
  change (Main.get _ (lit "reflection") _) with (PStr []).
  change (Main.get _ (lit "strategy") _) with (PStr []).
  change (Main.get _ (lit "dream_summary") _) with (PStr []).
  change (Main.get _ (lit "mindset") _) with (PStr []).
  assert (P : forallb Db.bindable_value
                [PStr today; PStr journal; PStr intention; PStr dream;
                 PStr priorities; PStr []; PStr []; PStr []; PStr []]
              = forallb Db.bindable
                  [today; journal; intention; dream; priorities]).
  { change (forallb Db.bindable_value
              (map PStr [today; journal; intention; dream; priorities]
               ++ map PStr [[]; []; []; []])
            = forallb Db.bindable
                [today; journal; intention; dream; priorities]).
    rewrite forallb_app, !DbFacts.bindable_strings. apply andb_true_r. }
  split.
  - intros B F.
    apply DbFacts.execute_insert_stored; [|exact F|exact L].
    now rewrite P.
  - intros S. apply DbFacts.execute_insert_refused. rewrite P. exact S.
Qed.

Lemma submit_saves_after_error_witness :
  fst (Main.on_submit cfg_none (replies good_reply) (lit "2024-05-01")
         (Some {| Db.rows := []; Db.seq := 0 |})
         (lit "j") (lit "d") (lit "i") (lit "p"))
  = (Return tt,
     Some {| Db.rows :=
               [[Db.Integer 1; Db.Text (lit "2024-05-01");
                 Db.Text (lit "j"); Db.Text (lit "i"); Db.Text (lit "d");
                 Db.Text (lit "p"); Db.Text []; Db.Text []; Db.Text [];
                 Db.Text []]];
             Db.seq := 1 |}).
Proof.
  apply (proj1 (submit_saves_after_error cfg_none (replies good_reply)
           (lit "2024-05-01") {| Db.rows := []; Db.seq := 0 |}
           (lit "j") (lit "d") (lit "i") (lit "p")
           [(lit "error", PStr NO_KEY_ERROR); (lit "raw", PNone)]
           eq_refl eq_refl eq_refl));
    reflexivity.
Defined.

(** After a result record, submitting the form stores the date, the four
    inputs and the four results in the columns of their names (strategy
    before dream_summary and mindset), and the sidebar then shows that
    row last among the entries of the day.  That is so whenever the nine
    values are texts that can be stored (without surrogates, and of a
    record within the size the library takes); with any other text
    [save_entry] raises and nothing is stored. *)
Theorem submit_saves_result (cfg : config) (llm : provider)
  (today : str) (t : Db.table) (journal dream intention priorities : str)
  (reflection dream_summary mindset strategy : str) :
  (Db.largest_rowid t < Db.MAX_ROWID)%Z ->
  fst (generate_reflection cfg llm (Some journal) (Some intention)
         (Some dream) (Some priorities))
  = Return [(lit "reflection", PStr reflection);
            (lit "dream_summary", PStr dream_summary);
            (lit "mindset", PStr mindset);
            (lit "strategy", PStr strategy)] ->
  let texts := [today; journal; intention; dream; priorities;
                reflection; strategy; dream_summary; mindset] in
  let values := [Db.Text today; Db.Text journal; Db.Text intention;
                 Db.Text dream; Db.Text priorities; Db.Text reflection;
                 Db.Text strategy; Db.Text dream_summary;
                 Db.Text mindset] in
  let new := Db.Integer (Db.largest_rowid t + 1) :: values in
  let done := fst (Main.on_submit cfg llm today (Some t) journal dream
                     intention priorities) in
  (forallb Db.bindable texts = true ->
   Db.fits values = true ->
   done = (Return tt,
           Some {| Db.rows := t.(Db.rows) ++ [new];
                   Db.seq := Db.largest_rowid t + 1 |})
   /\ exists found,
        Main.sidebar (Some t) today = Return found
        /\ Main.sidebar (snd done) today = Return (found ++ [new]))
  /\ (forallb Db.bindable texts && Db.fits values = false ->
      exists exc, done = (Raise exc, Some t)).
Proof.
  intros L H. cbv zeta.
  rewrite (on_submit_returned cfg llm today (Some t) journal dream
             intention priorities _ H).
  change (Main.get _ (lit "reflection") _) with (PStr reflection).
  change (Main.get _ (lit "strategy") _) with (PStr strategy).
  change (Main.get _ (lit "dream_summary") _) with (PStr dream_summary).
  change (Main.get _ (lit "mindset") _) with (PStr mindset).
  assert (P : forallb Db.bindable_value
                [PStr today; PStr journal; PStr intention; PStr dream;
                 PStr priorities; PStr reflection; PStr strategy;
                 PStr dream_summary; PStr mindset]
              = forallb Db.bindable
                  [today; journal; intention; dream; priorities;
                   reflection; strategy; dream_summary; mindset]).
  { apply (DbFacts.bindable_strings
             [today; journal; intention; dream; priorities; reflection;
              strategy; dream_summary; mindset]). }
  split.
  - intros B F.
    rewrite DbFacts.execute_insert_stored;
      [|now rewrite P|exact F|exact L].
    split; [reflexivity|].
    assert (D : Db.bind_param (PStr today) = Return (Db.Text today)).
    { apply (DbFacts.bind_param_bindable (PStr today)).
      cbn [forallb] in B. apply andb_prop in B. apply B. }
    exists (filter (fun r => Db.sql_eq (Db.column 1 r) (Db.Text today))
              t.(Db.rows)).
    unfold Main.sidebar. cbn [snd]. rewrite DbFacts.lookup_after.
    cbn [Db.get_entry_by_date]. rewrite D. cbn [py_bind].
    split; [reflexivity|].
    cbn [map nth Db.sql_value Db.sql_eq].
    now rewrite DbFacts.str_eqb_refl.
  - intros S. apply DbFacts.execute_insert_refused. rewrite P. exact S.
Qed.

Lemma submit_saves_result_witness :
  fst (Main.on_submit cfg_openai (replies good_reply) (lit "2024-05-01")
         (Some {| Db.rows := []; Db.seq := 0 |})
         (lit "j") (lit "d") (lit "i") (lit "p"))
  = (Return tt,
     Some {| Db.rows :=
               [[Db.Integer 1; Db.Text (lit "2024-05-01");
                 Db.Text (lit "j"); Db.Text (lit "i"); Db.Text (lit "d");
                 Db.Text (lit "p"); Db.Text (lit "r"); Db.Text (lit "s");
                 Db.Text (lit "d"); Db.Text (lit "m")]];
             Db.seq := 1 |}).
Proof.
  apply (proj1 (proj1 (submit_saves_result cfg_openai (replies good_reply)
                  (lit "2024-05-01") {| Db.rows := []; Db.seq := 0 |}
                  (lit "j") (lit "d") (lit "i") (lit "p")
                  (lit "r") (lit "d") (lit "m") (lit "s")
                  eq_refl eq_refl) eq_refl eq_refl)).
Defined.

(** A result that holds a surrogate, which the decoder returns for an
    escape such as [\ud800], stops the handler: with the table created
    and a date and inputs that can be bound, [save_entry] raises
    [UnicodeEncodeError] when it comes to the reflection, nothing is
    stored, and the lines after the call are not reached. *)
Theorem submit_stops_on_surrogate (cfg : config) (llm : provider)
  (today : str) (t : Db.table) (journal dream intention priorities : str)
  (reflection dream_summary mindset strategy : str) :
  forallb Db.bindable [today; journal; intention; dream; priorities]
  = true ->
  Db.encodable reflection = false ->
  fst (generate_reflection cfg llm (Some journal) (Some intention)
         (Some dream) (Some priorities))
  = Return [(lit "reflection", PStr reflection);
            (lit "dream_summary", PStr dream_summary);
            (lit "mindset", PStr mindset);
            (lit "strategy", PStr strategy)] ->
  fst (Main.on_submit cfg llm today (Some t) journal dream intention
         priorities)
  = (Raise Db.UNICODE_ENCODE_ERROR, Some t).
Proof.
  intros B E H.
  rewrite (on_submit_returned cfg llm today (Some t) journal dream
             intention priorities _ H).
  change (Main.get _ (lit "reflection") _) with (PStr reflection).
  change (Db.execute_insert (Some t) ?ps)
    with (Db.execute_insert (Some t)
            (map PStr [today; journal; intention; dream; priorities]
             ++ PStr reflection
             :: [Main.get
                   [(lit "reflection", PStr reflection);
                    (lit "dream_summary", PStr dream_summary);
                    (lit "mindset", PStr mindset);
                    (lit "strategy", PStr strategy)]
                   (lit "strategy") (PStr []);
                 Main.get
                   [(lit "reflection", PStr reflection);
                    (lit "dream_summary", PStr dream_summary);
                    (lit "mindset", PStr mindset);
                    (lit "strategy", PStr strategy)]
                   (lit "dream_summary") (PStr []);
                 Main.get
                   [(lit "reflection", PStr reflection);
                    (lit "dream_summary", PStr dream_summary);
                    (lit "mindset", PStr mindset);
                    (lit "strategy", PStr strategy)]
                   (lit "mindset") (PStr [])])).
  rewrite DbFacts.execute_insert_unbindable.
  - now rewrite E.
  - now rewrite DbFacts.bindable_strings.
  - unfold Db.bindable. now rewrite E.
Qed.

Lemma submit_stops_on_surrogate_witness :
  fst (Main.on_submit cfg_openai (replies surrogate_reply)
         (lit "2024-05-01") (Some {| Db.rows := []; Db.seq := 0 |})
         (lit "j") (lit "d") (lit "i") (lit "p"))
  = (Raise Db.UNICODE_ENCODE_ERROR,
     Some {| Db.rows := []; Db.seq := 0 |}).
Proof.
  apply (submit_stops_on_surrogate cfg_openai (replies surrogate_reply)
           (lit "2024-05-01") {| Db.rows := []; Db.seq := 0 |}
           (lit "j") (lit "d") (lit "i") (lit "p")
           [55296%N] [] [] []);
    reflexivity.
Defined.
